(** * KLineChart: the indicator store

    A shallow embedding of [src/store/IndicatorStore.ts]: the per-pane table of
    technical-indicator instances, the field-by-field override of an instance,
    and the operations that recompute instances.

    Conventions of the embedding.
    - A JavaScript [Map] is an insertion-ordered association list ([JsMap.t]):
      [forEach] visits entries in insertion order, and that order decides the
      order of the flags the store returns.
    - Objects are mutated in place in the source; here every operation returns
      the store it leaves behind. Where the source mutates an object reached
      through the table (an instance, a pane's map), the embedding writes the
      new value back under the same key, which keeps the entry's position.
    - An [async] method is represented by the store left behind once the
      returned promise has settled, together with the value it settles to
      ([Return]) or the exception it rejects with ([Throw]).
    - An optional property is an [option]: [None] is [undefined]. A property
      that may also be [null] is an [option (option _)]: [Some None] is
      [null]. *)

From stdpp Require Import base decidable option list strings.

Local Open Scope string_scope.
Local Open Scope Z_scope.

(** ** JavaScript [Map], keyed by strings *)

Module JsMap.

Definition t (V : Type) : Type := list (string * V).

Definition empty {V} : t V := [].

Fixpoint get {V} (k : string) (m : t V) : option V :=
  match m with
  | [] => None
  | (k', v) :: m' => if decide (k' = k) then Some v else get k m'
  end.

Definition has {V} (k : string) (m : t V) : bool :=
  match get k m with
  | Some _ => true
  | None => false
  end.

(** [set] on a key already present replaces the value where it stands; a new
    key goes to the end. *)
Fixpoint set {V} (k : string) (v : V) (m : t V) : t V :=
  match m with
  | [] => [(k, v)]
  | (k', v') :: m' =>
      if decide (k' = k) then (k, v) :: m' else (k', v') :: set k v m'
  end.

Fixpoint delete {V} (k : string) (m : t V) : t V :=
  match m with
  | [] => []
  | (k', v') :: m' =>
      if decide (k' = k) then m' else (k', v') :: delete k m'
  end.

Definition clear {V} (m : t V) : t V := [].

Definition size {V} (m : t V) : nat := length m.

Definition keys {V} (m : t V) : list string := map fst m.

Definition values {V} (m : t V) : list V := map snd m.

(** [m.forEach(v => ...)] for a callback that mutates the value [v] it is
    handed and pushes onto an array captured from the enclosing scope: the
    callback is a function from the value to the mutated value and the
    elements it pushed. *)
Fixpoint forEach {V T} (f : V -> V * list T) (m : t V) : t V * list T :=
  match m with
  | [] => ([], [])
  | (k, v) :: m' =>
      let '(v', pushed) := f v in
      let '(m'', pushed') := forEach f m' in
      ((k, v') :: m'', (pushed ++ pushed')%list)
  end.

(** [forEach] for a callback that only mutates the value. *)
Definition forEach_ {V} (f : V -> V) (m : t V) : t V :=
  map (fun kv => (fst kv, f (snd kv))) m.

End JsMap.

(** ** Values the store passes around *)

(** One point of the chart's data list; its shape is of no concern to the
    store. *)
Definition KLineData : Type := Z.

Inductive IndicatorSeries : Type := NORMAL | PRICE | VOLUME.

#[global] Instance IndicatorSeries_eq_dec : EqDecision IndicatorSeries.
Proof. solve_decision. Defined.

Record IndicatorPlot : Type := mkPlot {
  plotKey : string;
  plotTitle : string;
  plotType : string
}.

#[global] Instance IndicatorPlot_eq_dec : EqDecision IndicatorPlot.
Proof. solve_decision. Defined.

(** Style overrides, as a list of property paths and values. *)
Definition IndicatorStyle : Type := list (string * string).

(** The caller's payload ([any] in the source). *)
Definition ExtendData : Type := Z.

(** A function value, known to the store by its identity only. *)
Definition FnRef : Type := nat.

(** The calculation capability: from the calculation parameters, the caller's
    payload and the data list to the result, or [None] when it fails. *)
Definition IndicatorCalc : Type :=
  list Z -> ExtendData -> list KLineData -> option (list Z).

Record Precision : Type := mkPrecision {
  price : nat;
  volume : nat
}.

Inductive JsError : Type := TypeError.

Inductive Completion (A : Type) : Type :=
  | Return (a : A)
  | Throw (e : JsError).
Arguments Return {A} a.
Arguments Throw {A} e.

(** ** The configuration a caller hands in ([Indicator]) *)

Module Indicator.

Record t : Type := mk {
  name : string;
  shortName : option string;
  series : option IndicatorSeries;
  calcParams : option (list Z);
  precision : option nat;
  plots : option (list IndicatorPlot);
  minValue : option (option Z);
  maxValue : option (option Z);
  shouldOhlc : option bool;
  shouldFormatBigNumber : option bool;
  styles : option (option IndicatorStyle);
  extendData : option ExtendData;
  regeneratePlots : option (option FnRef);
  createToolTipDataSource : option (option FnRef);
  draw : option (option FnRef);
  calc : option IndicatorCalc
}.

(** [{ name }]: a configuration that names the indicator and overrides
    nothing. *)
Definition only (n : string) : t :=
  mk n None None None None None None None None None None None None None None
     None.

(** [{ name, shortName }] *)
Definition onlyShortName (n : string) (v : string) : t :=
  mk n (Some v) None None None None None None None None None None None None
     None None.

(** [{ name, calcParams }] *)
Definition onlyCalcParams (n : string) (v : list Z) : t :=
  mk n None None (Some v) None None None None None None None None None None
     None None.

(** [{ name, maxValue }] *)
Definition onlyMaxValue (n : string) (v : option Z) : t :=
  mk n None None None None None None (Some v) None None None None None None
     None None.

End Indicator.

(** ** An indicator instance ([IndicatorTemplate])

    The class itself is not among the sources at hand: the store only calls
    its methods. Its fields are those the store's [_overrideInstance] reads
    from a configuration, plus [result]. *)

Module IndicatorTemplate.

Record t : Type := mk {
  name : string;
  shortName : string;
  series : IndicatorSeries;
  calcParams : list Z;
  precision : nat;
  plots : list IndicatorPlot;
  minValue : option Z;
  maxValue : option Z;
  shouldOhlc : bool;
  shouldFormatBigNumber : bool;
  styles : option IndicatorStyle;
  extendData : ExtendData;
  regeneratePlots : option FnRef;
  createToolTipDataSource : option FnRef;
  draw : option FnRef;
  calc : IndicatorCalc;
  result : list Z
}.

(** Assignments to one field. *)

Definition with_shortName (v : string) (i : t) : t :=
  mk (name i) v (series i) (calcParams i) (precision i) (plots i)
     (minValue i) (maxValue i) (shouldOhlc i) (shouldFormatBigNumber i)
     (styles i) (extendData i) (regeneratePlots i)
     (createToolTipDataSource i) (draw i) (calc i) (result i).

Definition with_series (v : IndicatorSeries) (i : t) : t :=
  mk (name i) (shortName i) v (calcParams i) (precision i) (plots i)
     (minValue i) (maxValue i) (shouldOhlc i) (shouldFormatBigNumber i)
     (styles i) (extendData i) (regeneratePlots i)
     (createToolTipDataSource i) (draw i) (calc i) (result i).

Definition with_calcParams (v : list Z) (i : t) : t :=
  mk (name i) (shortName i) (series i) v (precision i) (plots i)
     (minValue i) (maxValue i) (shouldOhlc i) (shouldFormatBigNumber i)
     (styles i) (extendData i) (regeneratePlots i)
     (createToolTipDataSource i) (draw i) (calc i) (result i).

Definition with_precision (v : nat) (i : t) : t :=
  mk (name i) (shortName i) (series i) (calcParams i) v (plots i)
     (minValue i) (maxValue i) (shouldOhlc i) (shouldFormatBigNumber i)
     (styles i) (extendData i) (regeneratePlots i)
     (createToolTipDataSource i) (draw i) (calc i) (result i).

Definition with_plots (v : list IndicatorPlot) (i : t) : t :=
  mk (name i) (shortName i) (series i) (calcParams i) (precision i) v
     (minValue i) (maxValue i) (shouldOhlc i) (shouldFormatBigNumber i)
     (styles i) (extendData i) (regeneratePlots i)
     (createToolTipDataSource i) (draw i) (calc i) (result i).

Definition with_minValue (v : option Z) (i : t) : t :=
  mk (name i) (shortName i) (series i) (calcParams i) (precision i) (plots i)
     v (maxValue i) (shouldOhlc i) (shouldFormatBigNumber i)
     (styles i) (extendData i) (regeneratePlots i)
     (createToolTipDataSource i) (draw i) (calc i) (result i).

Definition with_maxValue (v : option Z) (i : t) : t :=
  mk (name i) (shortName i) (series i) (calcParams i) (precision i) (plots i)
     (minValue i) v (shouldOhlc i) (shouldFormatBigNumber i)
     (styles i) (extendData i) (regeneratePlots i)
     (createToolTipDataSource i) (draw i) (calc i) (result i).

Definition with_shouldOhlc (v : bool) (i : t) : t :=
  mk (name i) (shortName i) (series i) (calcParams i) (precision i) (plots i)
     (minValue i) (maxValue i) v (shouldFormatBigNumber i)
     (styles i) (extendData i) (regeneratePlots i)
     (createToolTipDataSource i) (draw i) (calc i) (result i).

Definition with_shouldFormatBigNumber (v : bool) (i : t) : t :=
  mk (name i) (shortName i) (series i) (calcParams i) (precision i) (plots i)
     (minValue i) (maxValue i) (shouldOhlc i) v
     (styles i) (extendData i) (regeneratePlots i)
     (createToolTipDataSource i) (draw i) (calc i) (result i).

Definition with_styles (v : option IndicatorStyle) (i : t) : t :=
  mk (name i) (shortName i) (series i) (calcParams i) (precision i) (plots i)
     (minValue i) (maxValue i) (shouldOhlc i) (shouldFormatBigNumber i)
     v (extendData i) (regeneratePlots i)
     (createToolTipDataSource i) (draw i) (calc i) (result i).

Definition with_extendData (v : ExtendData) (i : t) : t :=
  mk (name i) (shortName i) (series i) (calcParams i) (precision i) (plots i)
     (minValue i) (maxValue i) (shouldOhlc i) (shouldFormatBigNumber i)
     (styles i) v (regeneratePlots i)
     (createToolTipDataSource i) (draw i) (calc i) (result i).

Definition with_regeneratePlots (v : option FnRef) (i : t) : t :=
  mk (name i) (shortName i) (series i) (calcParams i) (precision i) (plots i)
     (minValue i) (maxValue i) (shouldOhlc i) (shouldFormatBigNumber i)
     (styles i) (extendData i) v
     (createToolTipDataSource i) (draw i) (calc i) (result i).

Definition with_createToolTipDataSource (v : option FnRef) (i : t) : t :=
  mk (name i) (shortName i) (series i) (calcParams i) (precision i) (plots i)
     (minValue i) (maxValue i) (shouldOhlc i) (shouldFormatBigNumber i)
     (styles i) (extendData i) (regeneratePlots i)
     v (draw i) (calc i) (result i).

Definition with_draw (v : option FnRef) (i : t) : t :=
  mk (name i) (shortName i) (series i) (calcParams i) (precision i) (plots i)
     (minValue i) (maxValue i) (shouldOhlc i) (shouldFormatBigNumber i)
     (styles i) (extendData i) (regeneratePlots i)
     (createToolTipDataSource i) v (calc i) (result i).

(** [instance.calc = calc] *)
Definition with_calc (v : IndicatorCalc) (i : t) : t :=
  mk (name i) (shortName i) (series i) (calcParams i) (precision i) (plots i)
     (minValue i) (maxValue i) (shouldOhlc i) (shouldFormatBigNumber i)
     (styles i) (extendData i) (regeneratePlots i)
     (createToolTipDataSource i) (draw i) v (result i).

Definition with_result (v : list Z) (i : t) : t :=
  mk (name i) (shortName i) (series i) (calcParams i) (precision i) (plots i)
     (minValue i) (maxValue i) (shouldOhlc i) (shouldFormatBigNumber i)
     (styles i) (extendData i) (regeneratePlots i)
     (createToolTipDataSource i) (draw i) (calc i) v.

(** Modelled from the spec: the conditional setters of the instance, whose
    class is not among the sources. "Each setter performs its own equality
    check and reports whether it actually altered state": the field is
    assigned and [true] reported when the new value differs from the current
    one; otherwise nothing happens and [false] is reported. *)
Definition conditionalSet {A} `{EqDecision A}
    (current : t -> A) (assign : A -> t -> t) (v : A) (i : t) : t * bool :=
  if decide (current i = v) then (i, false) else (assign v i, true).

(** Modelled from the spec: [setShortName], a conditional setter. *)
Definition setShortName : string -> t -> t * bool :=
  conditionalSet shortName with_shortName.

(** Modelled from the spec: [setSeries], a conditional setter. *)
Definition setSeries : IndicatorSeries -> t -> t * bool :=
  conditionalSet series with_series.

(** Modelled from the spec: [setCalcParams], a conditional setter. *)
Definition setCalcParams : list Z -> t -> t * bool :=
  conditionalSet calcParams with_calcParams.

(** Modelled from the spec: [setPlots], a conditional setter. *)
Definition setPlots : list IndicatorPlot -> t -> t * bool :=
  conditionalSet plots with_plots.

(** Modelled from the spec: [setMinValue], a conditional setter; the bound
    may be [null]. *)
Definition setMinValue : option Z -> t -> t * bool :=
  conditionalSet minValue with_minValue.

(** Modelled from the spec: [setMaxValue], a conditional setter; the bound
    may be [null]. *)
Definition setMaxValue : option Z -> t -> t * bool :=
  conditionalSet maxValue with_maxValue.

(** Modelled from the spec: [setPrecision(precision, flag)], a conditional
    setter. The precision is a number of decimal digits, a natural number.
    [flag] marks the change as forced by the store ([setSeriesPrecision]
    passes [true]); the spec attaches no further state to it. *)
Definition setPrecision (v : nat) (flag : bool) : t -> t * bool :=
  conditionalSet precision with_precision v.

(** Modelled from the spec: [setShouldOhlc], a conditional setter. *)
Definition setShouldOhlc : bool -> t -> t * bool :=
  conditionalSet shouldOhlc with_shouldOhlc.

(** Modelled from the spec: [setShouldFormatBigNumber], a conditional
    setter. *)
Definition setShouldFormatBigNumber : bool -> t -> t * bool :=
  conditionalSet shouldFormatBigNumber with_shouldFormatBigNumber.

(** Modelled from the spec: [setStyles], a conditional setter; the store never
    hands it [null]. *)
Definition setStyles (v : IndicatorStyle) : t -> t * bool :=
  conditionalSet styles with_styles (Some v).

(** Modelled from the spec: [setExtendData], a conditional setter. *)
Definition setExtendData : ExtendData -> t -> t * bool :=
  conditionalSet extendData with_extendData.

(** Modelled from the spec: [setRegeneratePlots], a conditional setter; the
    store never hands it [null]. *)
Definition setRegeneratePlots (v : FnRef) : t -> t * bool :=
  conditionalSet regeneratePlots with_regeneratePlots (Some v).

(** Modelled from the spec: [setCreateToolTipDataSource], a conditional
    setter; the store never hands it [null]. *)
Definition setCreateToolTipDataSource (v : FnRef) : t -> t * bool :=
  conditionalSet createToolTipDataSource with_createToolTipDataSource (Some v).

(** Modelled from the spec: [setDraw], a conditional setter; the store never
    hands it [null]. *)
Definition setDraw (v : FnRef) : t -> t * bool :=
  conditionalSet draw with_draw (Some v).

(** Modelled from the spec: [calcIndicator(dataList)], the recomputation of
    one instance. It "runs the instance's calc capability over dataList and
    stores the produced result on the instance, replacing any prior result";
    when the calculation fails the flag is [false] and "the instance retains
    its previous result". *)
Definition calcIndicator (dataList : list KLineData) (i : t) : t * bool :=
  match calc i (calcParams i) (extendData i) dataList with
  | Some r => (with_result r i, true)
  | None => (i, false)
  end.

End IndicatorTemplate.

(** [new Template()]: a registered constructor is given by the instance it
    builds. *)
Definition IndicatorConstructor : Type := IndicatorTemplate.t.

(** The chart store, of which the indicator store only calls
    [getDataList]. *)
Record ChartStore : Type := mkChartStore {
  getDataList : list KLineData
}.

(** ** The indicator store ([IndicatorStore]) *)

Record IndicatorStore : Type := mkStore {
  _chartStore : ChartStore;
  _templates : JsMap.t IndicatorConstructor;
  _instances : JsMap.t (JsMap.t IndicatorTemplate.t)
}.

Definition with_instances
    (m : JsMap.t (JsMap.t IndicatorTemplate.t)) (s : IndicatorStore)
    : IndicatorStore :=
  mkStore (_chartStore s) (_templates s) m.

(** Modelled from the spec: [register(name, factory)] of the template
    registry, which the store's source keeps as [_templates] but has no
    method for: it "stores the factory under name, overwriting any prior
    registration for that name". *)
Definition register (s : IndicatorStore) (name : string)
    (factory : IndicatorConstructor) : IndicatorStore :=
  mkStore (_chartStore s) (JsMap.set name factory (_templates s))
    (_instances s).

(** The pane's map, an object held by the table, after it was mutated. *)
Definition setPane (paneId : string) (paneInstances : JsMap.t IndicatorTemplate.t)
    (s : IndicatorStore) : IndicatorStore :=
  with_instances (JsMap.set paneId paneInstances (_instances s)) s.

(** [paneInstances?.has(name)]: [undefined] when [paneInstances] is, a
    boolean otherwise. *)
Definition optionalHas {V} (paneInstances : option (JsMap.t V)) (name : string)
    : option bool :=
  match paneInstances with
  | None => None
  | Some m => Some (JsMap.has name m)
  end.

(** [x !== undefined] *)
Definition notUndefined {A} (x : option A) : bool :=
  match x with
  | Some _ => true
  | None => false
  end.

(** [if (v !== undefined && instance.setX(v)) { overrideSuccess = true }],
    on the pair of the instance and [overrideSuccess]. *)
Definition ifDefined {A} (v : option A)
    (setX : A -> IndicatorTemplate.t -> IndicatorTemplate.t * bool)
    (st : IndicatorTemplate.t * bool) : IndicatorTemplate.t * bool :=
  match v with
  | None => st
  | Some v =>
      let '(instance, altered) := setX v (fst st) in
      (instance, if altered then true else snd st)
  end.

(** [if (v !== undefined && v !== null && instance.setX(v)) { ... }] *)
Definition ifNotNull {A} (v : option (option A))
    (setX : A -> IndicatorTemplate.t -> IndicatorTemplate.t * bool)
    (st : IndicatorTemplate.t * bool) : IndicatorTemplate.t * bool :=
  match v with
  | Some (Some v) =>
      let '(instance, altered) := setX v (fst st) in
      (instance, if altered then true else snd st)
  | _ => st
  end.

(** [_overrideInstance(instance, indicator)]: the instance after the
    overrides, and [[overrideSuccess, calcParamsSuccess]]. The statements are
    those of the source, in its order; the one for [maxValue] calls
    [setMinValue], as the source does. *)
Definition _overrideInstance
    (instance : IndicatorTemplate.t) (indicator : Indicator.t)
    : IndicatorTemplate.t * (bool * bool) :=
  let st := (instance, false) in
  let st := ifDefined (Indicator.shortName indicator)
              IndicatorTemplate.setShortName st in
  let st := ifDefined (Indicator.series indicator)
              IndicatorTemplate.setSeries st in
  let '(st, calcParamsSuccess) :=
    match Indicator.calcParams indicator with
    | None => (st, false)
    | Some calcParams =>
        let '(instance, altered) :=
          IndicatorTemplate.setCalcParams calcParams (fst st) in
        if altered then ((instance, true), true)
        else ((instance, snd st), false)
    end in
  let st := ifDefined (Indicator.plots indicator)
              IndicatorTemplate.setPlots st in
  let st := ifDefined (Indicator.minValue indicator)
              IndicatorTemplate.setMinValue st in
  let st := ifDefined (Indicator.maxValue indicator)
              IndicatorTemplate.setMinValue st in
  let st := ifDefined (Indicator.precision indicator)
              (fun precision => IndicatorTemplate.setPrecision precision false)
              st in
  let st := ifDefined (Indicator.shouldOhlc indicator)
              IndicatorTemplate.setShouldOhlc st in
  let st := ifDefined (Indicator.shouldFormatBigNumber indicator)
              IndicatorTemplate.setShouldFormatBigNumber st in
  let st := ifNotNull (Indicator.styles indicator)
              IndicatorTemplate.setStyles st in
  let st := ifDefined (Indicator.extendData indicator)
              IndicatorTemplate.setExtendData st in
  let st := ifNotNull (Indicator.regeneratePlots indicator)
              IndicatorTemplate.setRegeneratePlots st in
  let st := ifNotNull (Indicator.createToolTipDataSource indicator)
              IndicatorTemplate.setCreateToolTipDataSource st in
  let st := ifNotNull (Indicator.draw indicator)
              IndicatorTemplate.setDraw st in
  let instance :=
    match Indicator.calc indicator with
    | None => fst st
    | Some calc => IndicatorTemplate.with_calc calc (fst st)
    end in
  (instance, (snd st, calcParamsSuccess)).

(** [addInstance(paneId, indicator, isStack)]. [new Template()] throws a
    [TypeError] when no constructor is registered under the name. *)
Definition addInstance (s : IndicatorStore) (paneId : string)
    (indicator : Indicator.t) (isStack : bool)
    : IndicatorStore * Completion bool :=
  let name := Indicator.name indicator in
  let paneInstances := JsMap.get paneId (_instances s) in
  if notUndefined (optionalHas paneInstances name) then (s, Return false)
  else
    let '(s, paneInstances) :=
      match paneInstances with
      | None => (setPane paneId JsMap.empty s, JsMap.empty)
      | Some paneInstances => (s, paneInstances)
      end in
    match JsMap.get name (_templates s) with
    | None => (s, Throw TypeError)
    | Some Template =>
        let instance := Template in
        let '(instance, _) := _overrideInstance instance indicator in
        let paneInstances :=
          if negb isStack then JsMap.clear paneInstances else paneInstances in
        let paneInstances := JsMap.set name instance paneInstances in
        let s := setPane paneId paneInstances s in
        let '(instance, ok) :=
          IndicatorTemplate.calcIndicator (getDataList (_chartStore s))
            instance in
        (setPane paneId (JsMap.set name instance paneInstances) s, Return ok)
    end.

(** [getInstances(paneId)] *)
Definition getInstances (s : IndicatorStore) (paneId : string)
    : JsMap.t IndicatorTemplate.t :=
  default JsMap.empty (JsMap.get paneId (_instances s)).

(** [removeInstance(paneId, name?)] *)
Definition removeInstance (s : IndicatorStore) (paneId : string)
    (name : option string) : IndicatorStore * bool :=
  match JsMap.get paneId (_instances s) with
  | Some paneInstances =>
      let '(paneInstances, removed) :=
        match name with
        | Some name =>
            if JsMap.has name paneInstances
            then (JsMap.delete name paneInstances, true)
            else (paneInstances, false)
        | None => (JsMap.clear paneInstances, true)
        end in
      let s := setPane paneId paneInstances s in
      let s :=
        if decide (JsMap.size paneInstances = 0%nat)
        then with_instances (JsMap.delete paneId (_instances s)) s
        else s in
      (s, removed)
  | None => (s, false)
  end.

(** [hasInstances(paneId)] *)
Definition hasInstances (s : IndicatorStore) (paneId : string) : bool :=
  JsMap.has paneId (_instances s).

(** The body of the callbacks of [calcInstance] that look one name up in a
    pane: [if (paneInstances.has(name)) { tasks.push(instance.calcIndicator(...)) }]. *)
Definition calcNamed (dataList : list KLineData) (name : string)
    (paneInstances : JsMap.t IndicatorTemplate.t)
    : JsMap.t IndicatorTemplate.t * list bool :=
  match JsMap.get name paneInstances with
  | Some instance =>
      let '(instance, ok) :=
        IndicatorTemplate.calcIndicator dataList instance in
      (JsMap.set name instance paneInstances, [ok])
  | None => (paneInstances, [])
  end.

(** [calcInstance(name?, paneId?)] *)
Definition calcInstance (s : IndicatorStore) (name paneId : option string)
    : IndicatorStore * list bool :=
  let dataList := getDataList (_chartStore s) in
  match name with
  | Some name =>
      match paneId with
      | Some paneId =>
          let paneInstances := JsMap.get paneId (_instances s) in
          if default false (optionalHas paneInstances name) then
            match paneInstances with
            | Some paneInstances =>
                let '(paneInstances, tasks) :=
                  calcNamed dataList name paneInstances in
                (setPane paneId paneInstances s, tasks)
            | None => (s, [])
            end
          else (s, [])
      | None =>
          let '(instances, tasks) :=
            JsMap.forEach (calcNamed dataList name) (_instances s) in
          (with_instances instances s, tasks)
      end
  | None =>
      let '(instances, tasks) :=
        JsMap.forEach
          (JsMap.forEach (fun instance =>
             let '(instance, ok) :=
               IndicatorTemplate.calcIndicator dataList instance in
             (instance, [ok])))
          (_instances s) in
      (with_instances instances s, tasks)
  end.

(** What [getInstance(paneId?, name?)] returns. *)
Inductive Lookup : Type :=
  | OneInstance (i : option IndicatorTemplate.t)
  | OnePane (m : option (JsMap.t IndicatorTemplate.t))
  | WholeTable (m : JsMap.t (JsMap.t IndicatorTemplate.t)).

(** [getInstance(paneId?, name?)] *)
Definition getInstance (s : IndicatorStore) (paneId name : option string)
    : Lookup :=
  match paneId with
  | Some paneId =>
      let paneInstances := JsMap.get paneId (_instances s) in
      match name with
      | Some name => OneInstance (paneInstances ≫= JsMap.get name)
      | None => OnePane paneInstances
      end
  | None => WholeTable (_instances s)
  end.

(** [setSeriesPrecision(precision)] *)
Definition setSeriesPrecision (s : IndicatorStore) (precision : Precision)
    : IndicatorStore :=
  with_instances
    (JsMap.forEach_
       (JsMap.forEach_ (fun instance =>
          let instance :=
            if decide (IndicatorTemplate.series instance = PRICE)
            then fst (IndicatorTemplate.setPrecision (price precision) true
                        instance)
            else instance in
          if decide (IndicatorTemplate.series instance = VOLUME)
          then fst (IndicatorTemplate.setPrecision (volume precision) true
                      instance)
          else instance))
       (_instances s))
    s.

(** The callback of [override]'s [forEach]. *)
Definition overridePane (dataList : list KLineData) (indicator : Indicator.t)
    (paneInstances : JsMap.t IndicatorTemplate.t)
    : JsMap.t IndicatorTemplate.t * list bool :=
  let name := Indicator.name indicator in
  match JsMap.get name paneInstances with
  | Some instance =>
      let '(instance, overrideResult) :=
        _overrideInstance instance indicator in
      if snd overrideResult then
        let '(instance, ok) :=
          IndicatorTemplate.calcIndicator dataList instance in
        (JsMap.set name instance paneInstances, [ok])
      else (JsMap.set name instance paneInstances, [])
  | None => (paneInstances, [])
  end.

(** [override(indicator, paneId?)]. With a [paneId], [instances] is a fresh
    map that holds the table's own map of that pane, so what the callback
    does to the instances in it is done to the table's. *)
Definition override (s : IndicatorStore) (indicator : Indicator.t)
    (paneId : option string) : IndicatorStore * list bool :=
  let dataList := getDataList (_chartStore s) in
  match paneId with
  | Some paneId =>
      let instances :=
        match JsMap.get paneId (_instances s) with
        | Some paneInstances => JsMap.set paneId paneInstances JsMap.empty
        | None => JsMap.empty
        end in
      let '(instances, tasks) :=
        JsMap.forEach (overridePane dataList indicator) instances in
      (fold_left (fun s kv => setPane (fst kv) (snd kv) s) instances s, tasks)
  | None =>
      let '(instances, tasks) :=
        JsMap.forEach (overridePane dataList indicator) (_instances s) in
      (with_instances instances s, tasks)
  end.

(** ** Sample templates and stores *)

Module Sample.

(** A moving sum over the data list: each point plus the first parameter. *)
Definition shiftCalc : IndicatorCalc :=
  fun calcParams _ dataList =>
    Some (map (fun x => x + hd 0 calcParams) dataList).

Definition MA : IndicatorConstructor :=
  IndicatorTemplate.mk "MA" "MA" PRICE [5] 4 [mkPlot "ma" "MA: " "line"]
    None None false true None 0 None None None shiftCalc [].

Definition VOL : IndicatorConstructor :=
  IndicatorTemplate.mk "VOL" "VOL" VOLUME [5; 10] 0
    [mkPlot "volume" "VOLUME: " "bar"]
    (Some 0) None false true None 0 None None None shiftCalc [].

Definition MACD : IndicatorConstructor :=
  IndicatorTemplate.mk "MACD" "MACD" NORMAL [12; 26; 9] 4
    [mkPlot "dif" "DIF: " "line"]
    None None false true None 0 None None None shiftCalc [].

Definition chart : ChartStore := mkChartStore [10; 20; 30].

(** A store as its constructor leaves it: nothing registered, no instance. *)
Definition fresh : IndicatorStore := mkStore chart [] [].

(** The store once the three templates are registered. *)
Definition registered : IndicatorStore :=
  register (register (register fresh "MA" MA) "VOL" VOL) "MACD" MACD.

(** The instances once computed over the chart's data. *)
Definition MA_computed : IndicatorTemplate.t :=
  IndicatorTemplate.with_result [15; 25; 35] MA.

Definition VOL_computed : IndicatorTemplate.t :=
  IndicatorTemplate.with_result [15; 25; 35] VOL.

Definition MACD_computed : IndicatorTemplate.t :=
  IndicatorTemplate.with_result [22; 32; 42] MACD.

Definition MA10_computed : IndicatorTemplate.t :=
  IndicatorTemplate.with_result [20; 30; 40]
    (IndicatorTemplate.with_calcParams [10] MA).

(** [registered] after [addInstance("pane1", { name: "MA" }, true)]. *)
Definition onePane : IndicatorStore :=
  mkStore chart (_templates registered) [("pane1", [("MA", MA_computed)])].

(** [onePane] after three more calls of [addInstance], each on a pane of its
    own: an instance of each classification, and a second "MA" with other
    parameters. *)
Definition fourPanes : IndicatorStore :=
  mkStore chart (_templates registered)
    [("pane1", [("MA", MA_computed)]);
     ("pane2", [("VOL", VOL_computed)]);
     ("pane3", [("MACD", MACD_computed)]);
     ("pane4", [("MA", MA10_computed)])].

(** [fourPanes] once the chart has received one more point. *)
Definition fourPanesMoreData : IndicatorStore :=
  mkStore (mkChartStore [10; 20; 30; 40]) (_templates fourPanes)
    (_instances fourPanes).

(** [{ name: "MA", minValue: 1, maxValue: 2 }] *)
Definition minAndMax : Indicator.t :=
  Indicator.mk "MA" None None None None None (Some (Some 1)) (Some (Some 2))
    None None None None None None None None.

(** [{ name: "MA", shortName: "avg", calcParams: [10] }] *)
Definition renameAndParams : Indicator.t :=
  Indicator.mk "MA" (Some "avg") None (Some [10]) None None None None None None
    None None None None None None.

End Sample.

(** ** Vocabulary of the statements *)

(** The panes [override(indicator, paneId)] visits, in the order it visits
    them. *)
Definition selectedPanes (s : IndicatorStore) (paneId : option string)
    : list (string * JsMap.t IndicatorTemplate.t) :=
  match paneId with
  | Some paneId =>
      match JsMap.get paneId (_instances s) with
      | Some paneInstances => [(paneId, paneInstances)]
      | None => []
      end
  | None => _instances s
  end.

(** The instances under [name] in those panes, in the same order. *)
Definition matchedInstances (s : IndicatorStore) (name : string)
    (paneId : option string) : list IndicatorTemplate.t :=
  omap (fun pane => JsMap.get name (snd pane)) (selectedPanes s paneId).

(** Whether [paneId], as given to [override], selects the pane [pane]. *)
Definition selects (paneId : option string) (pane : string) : bool :=
  match paneId with
  | Some paneId => bool_decide (paneId = pane)
  | None => true
  end.

(** [calcParamsSuccess] of the override of [instance] by [indicator]. *)
Definition calcParamsChanged (indicator : Indicator.t)
    (instance : IndicatorTemplate.t) : bool :=
  snd (snd (_overrideInstance instance indicator)).

(** The flag of the recomputation of [instance] once overridden. *)
Definition recomputeFlag (dataList : list KLineData) (indicator : Indicator.t)
    (instance : IndicatorTemplate.t) : bool :=
  snd (IndicatorTemplate.calcIndicator dataList
         (fst (_overrideInstance instance indicator))).

(** A matched instance as [override] leaves it: overridden, and recomputed
    when its calculation parameters changed. *)
Definition overrideMatched (dataList : list KLineData) (indicator : Indicator.t)
    (instance : IndicatorTemplate.t) : IndicatorTemplate.t :=
  let overridden := fst (_overrideInstance instance indicator) in
  if calcParamsChanged indicator instance
  then fst (IndicatorTemplate.calcIndicator dataList overridden)
  else overridden.

(** The value of a field after a statement of [_overrideInstance] for a
    property that is skipped when [undefined] or [null]. *)
Definition orNonNull {A} (current : option A) (v : option (option A))
    : option A :=
  match v with
  | Some (Some a) => Some a
  | _ => current
  end.

(** Whether the conditional setter of a field reports a change. *)
Definition differs {A} `{EqDecision A} (v : option A) (current : A) : bool :=
  match v with
  | Some a => bool_decide (a <> current)
  | None => false
  end.

Definition differsNonNull {A} `{EqDecision A} (v : option (option A))
    (current : option A) : bool :=
  match v with
  | Some (Some a) => bool_decide (Some a <> current)
  | _ => false
  end.

(** The instance [_overrideInstance] leaves, field by field: [minValue] takes
    the [maxValue] of the configuration when there is one, and [maxValue] is
    never assigned. *)
Definition overridden (i : IndicatorTemplate.t) (p : Indicator.t)
    : IndicatorTemplate.t :=
  IndicatorTemplate.mk
    (IndicatorTemplate.name i)
    (default (IndicatorTemplate.shortName i) (Indicator.shortName p))
    (default (IndicatorTemplate.series i) (Indicator.series p))
    (default (IndicatorTemplate.calcParams i) (Indicator.calcParams p))
    (default (IndicatorTemplate.precision i) (Indicator.precision p))
    (default (IndicatorTemplate.plots i) (Indicator.plots p))
    (default (default (IndicatorTemplate.minValue i) (Indicator.minValue p))
       (Indicator.maxValue p))
    (IndicatorTemplate.maxValue i)
    (default (IndicatorTemplate.shouldOhlc i) (Indicator.shouldOhlc p))
    (default (IndicatorTemplate.shouldFormatBigNumber i)
       (Indicator.shouldFormatBigNumber p))
    (orNonNull (IndicatorTemplate.styles i) (Indicator.styles p))
    (default (IndicatorTemplate.extendData i) (Indicator.extendData p))
    (orNonNull (IndicatorTemplate.regeneratePlots i)
       (Indicator.regeneratePlots p))
    (orNonNull (IndicatorTemplate.createToolTipDataSource i)
       (Indicator.createToolTipDataSource p))
    (orNonNull (IndicatorTemplate.draw i) (Indicator.draw p))
    (default (IndicatorTemplate.calc i) (Indicator.calc p))
    (IndicatorTemplate.result i).

(** [overrideSuccess] as [_overrideInstance] returns it: the setters' reports,
    in the order of the calls. The second [setMinValue] meets the value the
    first one left. *)
Definition overrideSuccess (i : IndicatorTemplate.t) (p : Indicator.t) : bool :=
  differs (Indicator.shortName p) (IndicatorTemplate.shortName i)
  || differs (Indicator.series p) (IndicatorTemplate.series i)
  || differs (Indicator.calcParams p) (IndicatorTemplate.calcParams i)
  || differs (Indicator.plots p) (IndicatorTemplate.plots i)
  || differs (Indicator.minValue p) (IndicatorTemplate.minValue i)
  || differs (Indicator.maxValue p)
       (default (IndicatorTemplate.minValue i) (Indicator.minValue p))
  || differs (Indicator.precision p) (IndicatorTemplate.precision i)
  || differs (Indicator.shouldOhlc p) (IndicatorTemplate.shouldOhlc i)
  || differs (Indicator.shouldFormatBigNumber p)
       (IndicatorTemplate.shouldFormatBigNumber i)
  || differsNonNull (Indicator.styles p) (IndicatorTemplate.styles i)
  || differs (Indicator.extendData p) (IndicatorTemplate.extendData i)
  || differsNonNull (Indicator.regeneratePlots p)
       (IndicatorTemplate.regeneratePlots i)
  || differsNonNull (Indicator.createToolTipDataSource p)
       (IndicatorTemplate.createToolTipDataSource i)
  || differsNonNull (Indicator.draw p) (IndicatorTemplate.draw i).

(** All the instances of the table, pane after pane. *)
Definition allInstances (s : IndicatorStore) : list IndicatorTemplate.t :=
  concat (map JsMap.values (JsMap.values (_instances s))).

(** ** Vocabulary of the statements about the store's life *)

(** [new IndicatorStore(chartStore)]: both maps start empty. *)
Definition newIndicatorStore (chartStore : ChartStore) : IndicatorStore :=
  mkStore chartStore JsMap.empty JsMap.empty.

(** One call of a method of the store that can change it. *)
Inductive step : IndicatorStore -> IndicatorStore -> Prop :=
  | step_addInstance s paneId indicator isStack :
      step s (fst (addInstance s paneId indicator isStack))
  | step_removeInstance s paneId name :
      step s (fst (removeInstance s paneId name))
  | step_calcInstance s name paneId :
      step s (fst (calcInstance s name paneId))
  | step_setSeriesPrecision s precision :
      step s (setSeriesPrecision s precision)
  | step_override s indicator paneId :
      step s (fst (override s indicator paneId)).

(** The stores a sequence of calls leads to from [s0]. *)
Inductive reachable (s0 : IndicatorStore) : IndicatorStore -> Prop :=
  | reachable_start : reachable s0 s0
  | reachable_step s s' : reachable s0 s -> step s s' -> reachable s0 s'.

(** One call of a method of the store that can change it, other than a
    [removeInstance] on the pane [kept]. *)
Inductive stepKeeping (kept : string)
    : IndicatorStore -> IndicatorStore -> Prop :=
  | keeping_addInstance s paneId indicator isStack :
      stepKeeping kept s (fst (addInstance s paneId indicator isStack))
  | keeping_removeInstance s paneId name :
      paneId <> kept ->
      stepKeeping kept s (fst (removeInstance s paneId name))
  | keeping_calcInstance s name paneId :
      stepKeeping kept s (fst (calcInstance s name paneId))
  | keeping_setSeriesPrecision s precision :
      stepKeeping kept s (setSeriesPrecision s precision)
  | keeping_override s indicator paneId :
      stepKeeping kept s (fst (override s indicator paneId)).

(** The stores such calls lead to from [s0]. *)
Inductive reachableKeeping (kept : string) (s0 : IndicatorStore)
    : IndicatorStore -> Prop :=
  | keeping_start : reachableKeeping kept s0 s0
  | keeping_step s s' :
      reachableKeeping kept s0 s -> stepKeeping kept s s' ->
      reachableKeeping kept s0 s'.

(** No pane identifier twice in the table, no name twice in a pane. *)
Definition uniqueKeys (s : IndicatorStore) : Prop :=
  NoDup (JsMap.keys (_instances s)) /\
  Forall (fun pane => NoDup (JsMap.keys (snd pane))) (_instances s).

(** No pane of the table has an empty map. *)
Definition noEmptyPane (s : IndicatorStore) : Prop :=
  Forall (fun pane => snd pane <> []) (_instances s).

(** No pane of the table has more than one instance. *)
Definition atMostOne (s : IndicatorStore) : Prop :=
  Forall (fun pane => (JsMap.size (snd pane) <= 1)%nat) (_instances s).

(** The pane identifiers of the table with the names each pane holds, in
    the order of the maps. *)
Definition shape (s : IndicatorStore) : list (string * list string) :=
  map (fun pane => (fst pane, JsMap.keys (snd pane))) (_instances s).

(** The instances [calcInstance(name, paneId)] recomputes, in the order of
    their flags. *)
Definition calcSelected (s : IndicatorStore) (name paneId : option string)
    : list IndicatorTemplate.t :=
  match name with
  | Some name => matchedInstances s name paneId
  | None => allInstances s
  end.

(** Whether [calcInstance(name, paneId)] recomputes what the pane [pane] holds
    under [key]. *)
Definition calcSelects (name paneId : option string) (pane key : string)
    : bool :=
  match name with
  | Some name => bool_decide (key = name) && selects paneId pane
  | None => true
  end.

(** An instance, its result left aside. *)
Definition forgetResult (i : IndicatorTemplate.t) : IndicatorTemplate.t :=
  IndicatorTemplate.with_result [] i.

(** A configuration without its [calc]. *)
Definition withoutCalc (p : Indicator.t) : Indicator.t :=
  Indicator.mk (Indicator.name p) (Indicator.shortName p) (Indicator.series p)
    (Indicator.calcParams p) (Indicator.precision p) (Indicator.plots p)
    (Indicator.minValue p) (Indicator.maxValue p) (Indicator.shouldOhlc p)
    (Indicator.shouldFormatBigNumber p) (Indicator.styles p)
    (Indicator.extendData p) (Indicator.regeneratePlots p)
    (Indicator.createToolTipDataSource p) (Indicator.draw p) None.

(** [null] turned into [undefined]. *)
Definition nullAsAbsent {A} (v : option (option A)) : option (option A) :=
  match v with
  | Some None => None
  | _ => v
  end.

(** A configuration whose [styles], [regeneratePlots],
    [createToolTipDataSource] and [draw] are dropped when [null]. *)
Definition withoutNulls (p : Indicator.t) : Indicator.t :=
  Indicator.mk (Indicator.name p) (Indicator.shortName p) (Indicator.series p)
    (Indicator.calcParams p) (Indicator.precision p) (Indicator.plots p)
    (Indicator.minValue p) (Indicator.maxValue p) (Indicator.shouldOhlc p)
    (Indicator.shouldFormatBigNumber p) (nullAsAbsent (Indicator.styles p))
    (Indicator.extendData p) (nullAsAbsent (Indicator.regeneratePlots p))
    (nullAsAbsent (Indicator.createToolTipDataSource p))
    (nullAsAbsent (Indicator.draw p)) (Indicator.calc p).

(** The pane's map as [removeInstance] leaves it before the sweep of an empty
    pane, and the answer. *)
Definition removedFrom (name : option string)
    (paneInstances : JsMap.t IndicatorTemplate.t)
    : JsMap.t IndicatorTemplate.t * bool :=
  match name with
  | Some name =>
      if JsMap.has name paneInstances
      then (JsMap.delete name paneInstances, true)
      else (paneInstances, false)
  | None => (JsMap.clear paneInstances, true)
  end.

(** More samples. *)
Module SampleMore.

(** A calculation that fails on every input. *)
Definition failingCalc : IndicatorCalc := fun _ _ _ => None.

Definition BROKEN : IndicatorConstructor :=
  IndicatorTemplate.mk "BROKEN" "BROKEN" NORMAL [] 4 [] None None false true
    None 0 None None None failingCalc [].

(** [Sample.registered] with one more template. *)
Definition registered : IndicatorStore :=
  register Sample.registered "BROKEN" BROKEN.

(** [{ name: "MA", styles: null, draw: null, shortName: "avg" }] *)
Definition nullStyles : Indicator.t :=
  Indicator.mk "MA" (Some "avg") None None None None None None None None
    (Some None) None None None (Some None) None.

(** [{ name: "MA", precision: 4, calc }], which repeats the precision of a
    fresh "MA" and swaps its calculation. *)
Definition swapCalc : Indicator.t :=
  Indicator.mk "MA" None None None (Some 4%nat) None None None None None None
    None None None None (Some failingCalc).

End SampleMore.

(** * Properties *)

(** ** [JsMap] *)

Section JsMapFacts.
Context {V : Type}.
Implicit Types (m : JsMap.t V) (k : string) (v : V).

Lemma get_set_eq k v m : JsMap.get k (JsMap.set k v m) = Some v.
Proof.
  induction m as [|[k' v'] m IH]; simpl.
  - by rewrite decide_True.
  - destruct (decide (k' = k)) as [->|Hne]; simpl.
    + by rewrite decide_True.
    + by rewrite decide_False.
Qed.

Lemma get_set_ne k k' v m :
  k <> k' -> JsMap.get k' (JsMap.set k v m) = JsMap.get k' m.
Proof.
  intros Hne. induction m as [|[k0 v0] m IH]; simpl.
  - by rewrite decide_False.
  - destruct (decide (k0 = k)) as [->|Hk]; simpl.
    + by rewrite !decide_False.
    + destruct (decide (k0 = k')); [done | apply IH].
Qed.

Lemma set_set_eq k v v' m :
  JsMap.set k v (JsMap.set k v' m) = JsMap.set k v m.
Proof.
  induction m as [|[k0 v0] m IH]; simpl.
  - by rewrite decide_True.
  - destruct (decide (k0 = k)) as [->|Hk]; simpl.
    + by rewrite decide_True.
    + rewrite decide_False by done. by rewrite IH.
Qed.

Lemma has_true_get k m :
  JsMap.has k m = true <-> is_Some (JsMap.get k m).
Proof.
  unfold JsMap.has.
  destruct (JsMap.get k m); split; first [done | by eexists | by intros []].
Qed.

Lemma get_forEach_ (f : V -> V) k m :
  JsMap.get k (JsMap.forEach_ f m) = f <$> JsMap.get k m.
Proof.
  induction m as [|[k' v'] m IH]; simpl; [done|].
  destruct (decide (k' = k)); [done | apply IH].
Qed.

Lemma keys_forEach_ (f : V -> V) m :
  JsMap.keys (JsMap.forEach_ f m) = JsMap.keys m.
Proof.
  unfold JsMap.keys, JsMap.forEach_. rewrite map_map. by apply map_ext.
Qed.

Lemma forEach_fst {T} (f : V -> V * list T) m :
  fst (JsMap.forEach f m) = JsMap.forEach_ (fun v => fst (f v)) m.
Proof.
  induction m as [|[k v] m IH]; simpl; [done|].
  destruct (f v) as [v' pushed] eqn:Hf.
  destruct (JsMap.forEach f m) as [m' pushed'] eqn:Hm.
  simpl in *. by rewrite IH.
Qed.

Lemma forEach_snd {T} (f : V -> V * list T) m :
  snd (JsMap.forEach f m)
  = concat (map (fun v => snd (f v)) (JsMap.values m)).
Proof.
  induction m as [|[k v] m IH]; simpl; [done|].
  destruct (f v) as [v' pushed] eqn:Hf.
  destruct (JsMap.forEach f m) as [m' pushed'] eqn:Hm.
  simpl in *. by rewrite IH.
Qed.

Lemma forEach_pair {T} (f : V -> V * list T) m :
  JsMap.forEach f m
  = (JsMap.forEach_ (fun v => fst (f v)) m,
     concat (map (fun v => snd (f v)) (JsMap.values m))).
Proof.
  rewrite <- forEach_fst, <- forEach_snd. by destruct (JsMap.forEach f m).
Qed.

End JsMapFacts.

(** ** The table *)

Lemma getInstances_get s paneId name instance :
  JsMap.get name (getInstances s paneId) = Some instance ->
  exists paneInstances,
    JsMap.get paneId (_instances s) = Some paneInstances /\
    JsMap.get name paneInstances = Some instance.
Proof.
  unfold getInstances.
  destruct (JsMap.get paneId (_instances s)) as [m|]; simpl; [|done].
  intros H. by exists m.
Qed.

Lemma getInstances_setPane s paneId paneInstances :
  getInstances (setPane paneId paneInstances s) paneId = paneInstances.
Proof. unfold getInstances, setPane; simpl. by rewrite get_set_eq. Qed.

Lemma getInstances_setPane_ne s paneId paneId' paneInstances :
  paneId <> paneId' ->
  getInstances (setPane paneId paneInstances s) paneId'
  = getInstances s paneId'.
Proof.
  intros Hne. unfold getInstances, setPane; simpl. by rewrite get_set_ne.
Qed.

(** ** [addInstance] *)

(** The guard of [addInstance] answers for the pane: once the pane has a map
    in the table, the call returns [false] and the store is as before. *)
Lemma addInstance_existing_pane s paneId indicator isStack paneInstances :
  JsMap.get paneId (_instances s) = Some paneInstances ->
  addInstance s paneId indicator isStack = (s, Return false).
Proof. intros H. unfold addInstance. by rewrite H. Qed.

(** On a pane without a map, with a registered name, [addInstance] leaves the
    pane with exactly the new instance, overridden and computed. *)
Lemma addInstance_new_pane s paneId indicator isStack Template :
  JsMap.get paneId (_instances s) = None ->
  JsMap.get (Indicator.name indicator) (_templates s) = Some Template ->
  let computed :=
    IndicatorTemplate.calcIndicator (getDataList (_chartStore s))
      (fst (_overrideInstance Template indicator)) in
  addInstance s paneId indicator isStack
  = (setPane paneId [(Indicator.name indicator, fst computed)] s,
     Return (snd computed)).
Proof.
  intros Hpane Htpl. unfold addInstance. rewrite Hpane. simpl. rewrite Htpl.
  destruct (_overrideInstance Template indicator) as [instance flags].
  simpl.
  destruct (IndicatorTemplate.calcIndicator (getDataList (_chartStore s))
              instance) as [instance' ok].
  assert (Hpane' : (if negb isStack
                    then JsMap.clear (@JsMap.empty IndicatorTemplate.t)
                    else JsMap.empty) = []) by by destruct isStack.
  rewrite Hpane'. simpl. rewrite decide_True by done.
  unfold setPane, with_instances. simpl. by rewrite !set_set_eq.
Qed.

(** On a pane without a map, with a name that has no constructor,
    [addInstance] throws after it has put an empty map for the pane in the
    table. *)
Lemma addInstance_unknown_template s paneId indicator isStack :
  JsMap.get paneId (_instances s) = None ->
  JsMap.get (Indicator.name indicator) (_templates s) = None ->
  addInstance s paneId indicator isStack
  = (setPane paneId JsMap.empty s, Throw TypeError).
Proof.
  intros Hpane Htpl. unfold addInstance. rewrite Hpane. simpl. by rewrite Htpl.
Qed.

(** Whenever a call returns [true], a second call on the same pane with
    another name returns [false] and the pane does not hold that name. *)
Lemma addInstance_second_rejected s s1 paneId first second isStack isStack' :
  addInstance s paneId first isStack = (s1, Return true) ->
  Indicator.name first <> Indicator.name second ->
  addInstance s1 paneId second isStack' = (s1, Return false) /\
  JsMap.has (Indicator.name second) (getInstances s1 paneId) = false.
Proof.
  intros Hadd Hne.
  destruct (JsMap.get paneId (_instances s)) as [m|] eqn:Hpane.
  { rewrite (addInstance_existing_pane _ _ _ _ _ Hpane) in Hadd. congruence. }
  destruct (JsMap.get (Indicator.name first) (_templates s)) as [T|] eqn:Htpl.
  2: { rewrite addInstance_unknown_template in Hadd by done. congruence. }
  rewrite (addInstance_new_pane _ _ _ _ _ Hpane Htpl) in Hadd.
  injection Hadd as <- _. split.
  - eapply addInstance_existing_pane. unfold setPane. simpl. apply get_set_eq.
  - rewrite getInstances_setPane. unfold JsMap.has. simpl.
    by rewrite decide_False.
Qed.

(** The sample tables are what the calls leave. *)
Example sample_tables_reached :
  let add s paneId indicator := fst (addInstance s paneId indicator true) in
  add Sample.registered "pane1" (Indicator.only "MA") = Sample.onePane /\
  add (add (add Sample.onePane "pane2" (Indicator.only "VOL"))
         "pane3" (Indicator.only "MACD"))
    "pane4" (Indicator.onlyCalcParams "MA" [10])
  = Sample.fourPanes.
Proof. split; reflexivity. Qed.

(** C2. For a pane that has an entry in the table, whatever names it holds,
    [addInstance] returns [false] and leaves the whole store as it was, also
    when the name of the configuration is not in the pane: the guard tests
    that the pane exists, not that it holds the name. *)
Theorem addInstance_guard_tests_pane s paneId indicator isStack :
  hasInstances s paneId = true ->
  addInstance s paneId indicator isStack = (s, Return false).
Proof.
  intros Hhas. apply has_true_get in Hhas as [paneInstances Hget].
  by eapply addInstance_existing_pane.
Qed.

Lemma addInstance_guard_tests_pane_witness :
  hasInstances Sample.onePane "pane1" = true /\
  JsMap.has "VOL" (getInstances Sample.onePane "pane1") = false /\
  addInstance Sample.onePane "pane1" (Indicator.only "VOL") true
  = (Sample.onePane, Return false).
Proof.
  split; [reflexivity|]. split; [reflexivity|].
  apply (addInstance_guard_tests_pane Sample.onePane "pane1"
           (Indicator.only "VOL") true).
  reflexivity.
Defined.

(** C7. When the pane already holds an instance under the name of the
    configuration, [addInstance] returns [false], raises nothing, and leaves
    the store, hence that instance with its configuration and its result, as
    it was. *)
Theorem addInstance_duplicate_noop s paneId indicator isStack instance :
  JsMap.get (Indicator.name indicator) (getInstances s paneId) = Some instance ->
  addInstance s paneId indicator isStack = (s, Return false) /\
  JsMap.get (Indicator.name indicator)
    (getInstances (fst (addInstance s paneId indicator isStack)) paneId)
  = Some instance.
Proof.
  intros Hget.
  destruct (getInstances_get _ _ _ _ Hget) as (paneInstances & Hpane & _).
  rewrite (addInstance_existing_pane _ _ _ _ _ Hpane). by split.
Qed.

Lemma addInstance_duplicate_noop_witness :
  JsMap.get "MA" (getInstances Sample.onePane "pane1")
  = Some Sample.MA_computed /\
  addInstance Sample.onePane "pane1" (Indicator.only "MA") false
  = (Sample.onePane, Return false) /\
  JsMap.get "MA"
    (getInstances
       (fst (addInstance Sample.onePane "pane1" (Indicator.only "MA") false))
       "pane1")
  = Some Sample.MA_computed.
Proof.
  split; [reflexivity|].
  apply (addInstance_duplicate_noop Sample.onePane "pane1"
           (Indicator.only "MA") false Sample.MA_computed).
  reflexivity.
Defined.


(** C4, at a store with nothing registered and no instance. The call throws,
    and an empty map for "pane1" stays in the table: [hasInstances] answers
    [true] for a pane that holds no instance. *)
Theorem addInstance_unknown_template_leaves_pane :
  let after := fst (addInstance Sample.fresh "pane1" (Indicator.only "MA") true) in
  snd (addInstance Sample.fresh "pane1" (Indicator.only "MA") true)
  = Throw TypeError /\
  _instances Sample.fresh = [] /\
  _instances after = [("pane1", [])] /\
  hasInstances Sample.fresh "pane1" = false /\
  hasInstances after "pane1" = true /\
  JsMap.size (getInstances after "pane1") = 0%nat.
Proof. repeat split; reflexivity. Qed.

(** ** [_overrideInstance] *)

Section ConditionalSetters.
Context {A : Type} `{EqDecision A}.
Variable current : IndicatorTemplate.t -> A.
Variable assign : A -> IndicatorTemplate.t -> IndicatorTemplate.t.

Lemma conditionalSet_same i :
  IndicatorTemplate.conditionalSet current assign (current i) i = (i, false).
Proof. unfold IndicatorTemplate.conditionalSet. by rewrite decide_True. Qed.

Lemma conditionalSet_differs v i :
  v <> current i ->
  IndicatorTemplate.conditionalSet current assign v i = (assign v i, true).
Proof.
  intros Hne. unfold IndicatorTemplate.conditionalSet.
  by rewrite decide_False.
Qed.

Lemma conditionalSet_reports v i :
  snd (IndicatorTemplate.conditionalSet current assign v i)
  = bool_decide (v <> current i).
Proof.
  unfold IndicatorTemplate.conditionalSet.
  destruct (decide (current i = v)) as [<-|Hne]; simpl.
  - by rewrite bool_decide_eq_false_2 by auto.
  - by rewrite bool_decide_eq_true_2 by auto.
Qed.

(** A setter that assigns the current value changes nothing, so what it
    leaves is the assignment in both cases. *)
Lemma conditionalSet_assigns v i :
  (forall j, assign (current j) j = j) ->
  fst (IndicatorTemplate.conditionalSet current assign v i) = assign v i.
Proof.
  intros Hid. unfold IndicatorTemplate.conditionalSet.
  destruct (decide (current i = v)) as [<-|Hne]; simpl; by rewrite ?Hid.
Qed.

End ConditionalSetters.

(** [calcParamsSuccess] is decided by the calculation parameters alone. *)
Lemma calcParamsChanged_spec indicator instance :
  calcParamsChanged indicator instance
  = match Indicator.calcParams indicator with
    | Some v => bool_decide (v <> IndicatorTemplate.calcParams instance)
    | None => false
    end.
Proof.
  unfold calcParamsChanged, _overrideInstance.
  assert (Hkeep : forall st : IndicatorTemplate.t * bool,
    IndicatorTemplate.calcParams
      (fst (ifDefined (Indicator.series indicator) IndicatorTemplate.setSeries
              (ifDefined (Indicator.shortName indicator)
                 IndicatorTemplate.setShortName st)))
    = IndicatorTemplate.calcParams (fst st)).
  { intros [i b].
    destruct (Indicator.shortName indicator) as [sn|],
             (Indicator.series indicator) as [se|]; simpl;
      unfold IndicatorTemplate.setShortName, IndicatorTemplate.setSeries,
        IndicatorTemplate.conditionalSet;
      repeat case_decide; reflexivity. }
  specialize (Hkeep (instance, false)). simpl in Hkeep.
  destruct (Indicator.calcParams indicator) as [cp|]; [|reflexivity].
  set (st := ifDefined _ _ (ifDefined _ _ _)) in *.
  rewrite <- Hkeep.
  pose proof (conditionalSet_reports IndicatorTemplate.calcParams
                IndicatorTemplate.with_calcParams cp (fst st)) as Hrep.
  unfold IndicatorTemplate.setCalcParams.
  destruct (IndicatorTemplate.conditionalSet _ _ cp (fst st)) as [i' [|]];
    simpl in *; exact Hrep.
Qed.

Lemma calcParamsChanged_true_iff indicator instance :
  calcParamsChanged indicator instance = true <->
  exists v, Indicator.calcParams indicator = Some v /\
            v <> IndicatorTemplate.calcParams instance.
Proof.
  rewrite calcParamsChanged_spec.
  destruct (Indicator.calcParams indicator) as [cp|].
  - rewrite bool_decide_eq_true. split.
    + intros Hne. by exists cp.
    + intros (v & [= <-] & Hne). done.
  - split; [done | by intros (v & ? & _)].
Qed.

Lemma overrideInstance_onlyShortName instance name v :
  _overrideInstance instance (Indicator.onlyShortName name v)
  = (fst (IndicatorTemplate.setShortName v instance),
     (snd (IndicatorTemplate.setShortName v instance), false)).
Proof.
  unfold _overrideInstance; simpl.
  by destruct (IndicatorTemplate.setShortName v instance) as [i [|]].
Qed.

Lemma overrideInstance_onlyCalcParams instance name v :
  _overrideInstance instance (Indicator.onlyCalcParams name v)
  = (fst (IndicatorTemplate.setCalcParams v instance),
     (snd (IndicatorTemplate.setCalcParams v instance),
      snd (IndicatorTemplate.setCalcParams v instance))).
Proof.
  unfold _overrideInstance; simpl.
  by destruct (IndicatorTemplate.setCalcParams v instance) as [i [|]].
Qed.

(** For [{ name, maxValue }] the one setter called is [setMinValue]. *)
Lemma overrideInstance_onlyMaxValue instance name v :
  _overrideInstance instance (Indicator.onlyMaxValue name v)
  = (fst (IndicatorTemplate.setMinValue v instance),
     (snd (IndicatorTemplate.setMinValue v instance), false)).
Proof.
  unfold _overrideInstance; simpl.
  by destruct (IndicatorTemplate.setMinValue v instance) as [i [|]].
Qed.

(** *** The outcome of [_overrideInstance] in closed form *)

Section Steps.
Context {A : Type} `{EqDecision A}.
Variable current : IndicatorTemplate.t -> A.
Variable assign : A -> IndicatorTemplate.t -> IndicatorTemplate.t.
Hypothesis assign_current : forall j, assign (current j) j = j.

Lemma ifDefined_conditionalSet v st :
  ifDefined v (IndicatorTemplate.conditionalSet current assign) st
  = (assign (default (current (fst st)) v) (fst st),
     snd st || differs v (current (fst st))).
Proof.
  destruct st as [i b], v as [a|]; simpl.
  - unfold IndicatorTemplate.conditionalSet.
    destruct (decide (current i = a)) as [<-|Hne]; simpl.
    + rewrite assign_current, bool_decide_eq_false_2 by auto.
      by rewrite orb_false_r.
    + rewrite bool_decide_eq_true_2 by auto. by rewrite orb_true_r.
  - by rewrite assign_current, orb_false_r.
Qed.
End Steps.

Section StepsNonNull.
Context {A : Type} `{EqDecision A}.
Variable current : IndicatorTemplate.t -> option A.
Variable assign : option A -> IndicatorTemplate.t -> IndicatorTemplate.t.
Hypothesis assign_current : forall j, assign (current j) j = j.

Lemma ifNotNull_conditionalSet v st :
  ifNotNull v
    (fun a => IndicatorTemplate.conditionalSet current assign (Some a)) st
  = (assign (orNonNull (current (fst st)) v) (fst st),
     snd st || differsNonNull v (current (fst st))).
Proof.
  destruct st as [i b], v as [[a|]|]; simpl;
    try by rewrite assign_current, orb_false_r.
  unfold IndicatorTemplate.conditionalSet.
  destruct (decide (current i = Some a)) as [Heq|Hne]; simpl.
  - rewrite <- Heq, assign_current, bool_decide_eq_false_2 by auto.
    by rewrite orb_false_r.
  - rewrite bool_decide_eq_true_2 by auto. by rewrite orb_true_r.
Qed.
End StepsNonNull.

Lemma setCalcParams_step
    (v : option (list Z)) (i : IndicatorTemplate.t) (b : bool) :
  match v with
  | None => ((i, b), false)
  | Some calcParams =>
      let '(instance, altered) :=
        IndicatorTemplate.setCalcParams calcParams i in
      if altered then ((instance, true), true)
      else ((instance, b), false)
  end
  = ((IndicatorTemplate.with_calcParams
        (default (IndicatorTemplate.calcParams i) v) i,
      b || differs v (IndicatorTemplate.calcParams i)),
     differs v (IndicatorTemplate.calcParams i)).
Proof.
  destruct v as [a|]; simpl.
  - unfold IndicatorTemplate.setCalcParams, IndicatorTemplate.conditionalSet.
    destruct (decide (IndicatorTemplate.calcParams i = a)) as [<-|Hne]; simpl.
    + rewrite bool_decide_eq_false_2 by auto. rewrite orb_false_r.
      by destruct i.
    + rewrite bool_decide_eq_true_2 by auto. by rewrite orb_true_r.
  - rewrite orb_false_r. by destruct i.
Qed.

Section ClosedForm.

#[local] Arguments IndicatorTemplate.with_shortName _ !_ /.
#[local] Arguments IndicatorTemplate.with_series _ !_ /.
#[local] Arguments IndicatorTemplate.with_calcParams _ !_ /.
#[local] Arguments IndicatorTemplate.with_precision _ !_ /.
#[local] Arguments IndicatorTemplate.with_plots _ !_ /.
#[local] Arguments IndicatorTemplate.with_minValue _ !_ /.
#[local] Arguments IndicatorTemplate.with_shouldOhlc _ !_ /.
#[local] Arguments IndicatorTemplate.with_shouldFormatBigNumber _ !_ /.
#[local] Arguments IndicatorTemplate.with_styles _ !_ /.
#[local] Arguments IndicatorTemplate.with_extendData _ !_ /.
#[local] Arguments IndicatorTemplate.with_regeneratePlots _ !_ /.
#[local] Arguments IndicatorTemplate.with_createToolTipDataSource _ !_ /.
#[local] Arguments IndicatorTemplate.with_draw _ !_ /.
#[local] Arguments IndicatorTemplate.with_calc _ !_ /.

Ltac one_step :=
  match goal with
  | |- context [ifDefined ?v (IndicatorTemplate.conditionalSet ?c ?a)
                  (?x, ?b)] =>
      rewrite (ifDefined_conditionalSet c a) by (by intros []); simpl
  | |- context [ifNotNull ?v
                  (fun a => IndicatorTemplate.conditionalSet ?c ?f (Some a))
                  (?x, ?b)] =>
      rewrite (ifNotNull_conditionalSet c f) by (by intros []); simpl
  end.

(** What [_overrideInstance] leaves and returns, for every instance and every
    configuration. *)
Lemma overrideInstance_closed_form i p :
  _overrideInstance i p
  = (overridden i p,
     (overrideSuccess i p,
      differs (Indicator.calcParams p) (IndicatorTemplate.calcParams i))).
Proof.
  destruct i, p as [n sn se cp pr pl mi ma so sf sty ex rp ct dr ca].
  unfold _overrideInstance, overridden, overrideSuccess.
  unfold IndicatorTemplate.setShortName, IndicatorTemplate.setSeries,
    IndicatorTemplate.setPlots, IndicatorTemplate.setMinValue,
    IndicatorTemplate.setPrecision, IndicatorTemplate.setShouldOhlc,
    IndicatorTemplate.setShouldFormatBigNumber, IndicatorTemplate.setStyles,
    IndicatorTemplate.setExtendData, IndicatorTemplate.setRegeneratePlots,
    IndicatorTemplate.setCreateToolTipDataSource, IndicatorTemplate.setDraw.
  change (fun v : nat =>
            IndicatorTemplate.conditionalSet IndicatorTemplate.precision
              IndicatorTemplate.with_precision v)
    with (IndicatorTemplate.conditionalSet IndicatorTemplate.precision
            IndicatorTemplate.with_precision).
  cbv zeta. simpl.
  do 2 one_step.
  rewrite setCalcParams_step. simpl.
  repeat one_step.
  by destruct ca.
Qed.
End ClosedForm.

Lemma differs_default {A} `{EqDecision A} (v : option A) (current : A) :
  differs v (default current v) = false.
Proof.
  destruct v; simpl; [|done]. by rewrite bool_decide_eq_false_2 by auto.
Qed.

Lemma differsNonNull_orNonNull {A} `{EqDecision A}
    (v : option (option A)) (current : option A) :
  differsNonNull v (orNonNull current v) = false.
Proof.
  destruct v as [[a|]|]; simpl; try done.
  by rewrite bool_decide_eq_false_2 by auto.
Qed.

Lemma default_default {A} (v : option A) (current : A) :
  default (default current v) v = default current v.
Proof. by destruct v. Qed.

Lemma orNonNull_orNonNull {A} (v : option (option A)) (current : option A) :
  orNonNull (orNonNull current v) v = orNonNull current v.
Proof. by destruct v as [[a|]|]. Qed.

(** Overriding again with the same configuration leaves the same instance. *)
Lemma overridden_idempotent i p :
  overridden (overridden i p) p = overridden i p.
Proof.
  unfold overridden. simpl.
  rewrite !default_default, !orNonNull_orNonNull. f_equal.
  by destruct (Indicator.maxValue p), (Indicator.minValue p).
Qed.

(** The second application reports a change exactly when the configuration
    has both bounds and they differ. *)
Lemma overrideSuccess_again i p :
  overrideSuccess (overridden i p) p
  = match Indicator.minValue p, Indicator.maxValue p with
    | Some lower, Some upper => bool_decide (lower <> upper)
    | _, _ => false
    end.
Proof.
  unfold overrideSuccess, overridden. simpl.
  rewrite !differs_default, !differsNonNull_orNonNull. simpl.
  destruct (Indicator.minValue p) as [lower|],
           (Indicator.maxValue p) as [upper|]; simpl;
    rewrite ?orb_false_r; try done.
  - destruct (decide (lower = upper)) as [->|Hne].
    + by rewrite !bool_decide_eq_false_2 by auto.
    + by rewrite !bool_decide_eq_true_2 by auto.
  - by rewrite bool_decide_eq_false_2 by auto.
  - by rewrite bool_decide_eq_false_2 by auto.
Qed.

Lemma overrideInstance_twice i p :
  let first := _overrideInstance i p in
  let second := _overrideInstance (fst first) p in
  fst second = fst first /\
  fst (snd second)
  = match Indicator.minValue p, Indicator.maxValue p with
    | Some lower, Some upper => bool_decide (lower <> upper)
    | _, _ => false
    end /\
  snd (snd second) = false.
Proof.
  cbv zeta. rewrite !overrideInstance_closed_form. simpl.
  split; [apply overridden_idempotent|]. split; [apply overrideSuccess_again|].
  apply differs_default.
Qed.

(** ** [override] *)

Section Override.
Variable dataList : list KLineData.
Variable indicator : Indicator.t.
Implicit Types paneInstances : JsMap.t IndicatorTemplate.t.

Lemma overridePane_spec paneInstances :
  overridePane dataList indicator paneInstances
  = match JsMap.get (Indicator.name indicator) paneInstances with
    | Some instance =>
        (JsMap.set (Indicator.name indicator)
           (overrideMatched dataList indicator instance) paneInstances,
         if calcParamsChanged indicator instance
         then [recomputeFlag dataList indicator instance] else [])
    | None => (paneInstances, [])
    end.
Proof.
  unfold overridePane, overrideMatched, calcParamsChanged, recomputeFlag.
  destruct (JsMap.get _ paneInstances) as [instance|]; [|done].
  destruct (_overrideInstance instance indicator) as [i [b [|]]]; simpl;
    [|done].
  by destruct (IndicatorTemplate.calcIndicator dataList i).
Qed.

Lemma overridePane_get paneInstances :
  JsMap.get (Indicator.name indicator)
    (fst (overridePane dataList indicator paneInstances))
  = overrideMatched dataList indicator
      <$> JsMap.get (Indicator.name indicator) paneInstances.
Proof.
  rewrite overridePane_spec.
  destruct (JsMap.get _ paneInstances) as [instance|] eqn:Hget; simpl.
  - apply get_set_eq.
  - exact Hget.
Qed.

Lemma overridePane_get_other paneInstances name :
  name <> Indicator.name indicator ->
  JsMap.get name (fst (overridePane dataList indicator paneInstances))
  = JsMap.get name paneInstances.
Proof.
  intros Hne. rewrite overridePane_spec.
  destruct (JsMap.get _ paneInstances) as [instance|]; simpl; [|done].
  by apply get_set_ne.
Qed.

Lemma overridePane_tasks (panes : JsMap.t (JsMap.t IndicatorTemplate.t)) :
  concat (map (fun m => snd (overridePane dataList indicator m))
            (JsMap.values panes))
  = map (recomputeFlag dataList indicator)
      (List.filter (calcParamsChanged indicator)
         (omap (fun pane => JsMap.get (Indicator.name indicator) (snd pane))
            panes)).
Proof.
  induction panes as [|[k m] panes IH]; simpl; [done|].
  rewrite IH, overridePane_spec.
  destruct (JsMap.get _ m) as [instance|]; simpl; [|done].
  by destruct (calcParamsChanged indicator instance).
Qed.

End Override.

Lemma override_one_pane s indicator paneId paneInstances :
  JsMap.get paneId (_instances s) = Some paneInstances ->
  let visited :=
    overridePane (getDataList (_chartStore s)) indicator paneInstances in
  override s indicator (Some paneId)
  = (setPane paneId (fst visited) s, snd visited).
Proof.
  intros Hget. unfold override. rewrite Hget. simpl.
  destruct (overridePane _ indicator paneInstances) as [m tasks]. simpl.
  by rewrite app_nil_r.
Qed.

Lemma override_absent_pane s indicator paneId :
  JsMap.get paneId (_instances s) = None ->
  override s indicator (Some paneId) = (s, []).
Proof. intros Hget. unfold override. by rewrite Hget. Qed.

Lemma override_all_panes s indicator :
  let callback := overridePane (getDataList (_chartStore s)) indicator in
  override s indicator None
  = (with_instances
       (JsMap.forEach_ (fun m => fst (callback m)) (_instances s)) s,
     concat (map (fun m => snd (callback m)) (JsMap.values (_instances s)))).
Proof. unfold override. by rewrite forEach_pair. Qed.

(** The flags [override] returns: one per matched instance whose calculation
    parameters changed, in the order of the panes. *)
Lemma override_tasks s indicator paneId :
  snd (override s indicator paneId)
  = map (recomputeFlag (getDataList (_chartStore s)) indicator)
      (List.filter (calcParamsChanged indicator)
         (matchedInstances s (Indicator.name indicator) paneId)).
Proof.
  unfold matchedInstances, selectedPanes.
  destruct paneId as [paneId|].
  - destruct (JsMap.get paneId (_instances s)) as [m|] eqn:Hget.
    + rewrite (override_one_pane _ _ _ _ Hget). simpl.
      rewrite <- (overridePane_tasks _ indicator [(paneId, m)]). simpl.
      by rewrite app_nil_r.
    + by rewrite override_absent_pane.
  - rewrite override_all_panes. simpl. apply overridePane_tasks.
Qed.

(** The table [override] leaves: the selected panes went through the
    callback, the others are as before. *)
Lemma override_getInstances s indicator paneId pane :
  getInstances (fst (override s indicator paneId)) pane
  = if selects paneId pane
    then fst (overridePane (getDataList (_chartStore s)) indicator
                (getInstances s pane))
    else getInstances s pane.
Proof.
  unfold selects. destruct paneId as [paneId|].
  - destruct (JsMap.get paneId (_instances s)) as [m|] eqn:Hget.
    + rewrite (override_one_pane _ _ _ _ Hget). simpl.
      case_bool_decide as Hp.
      * subst pane. rewrite getInstances_setPane.
        unfold getInstances. by rewrite Hget.
      * by rewrite getInstances_setPane_ne.
    + rewrite override_absent_pane by done. simpl.
      case_bool_decide as Hp; [|done]. subst pane.
      unfold getInstances. by rewrite Hget.
  - rewrite override_all_panes. simpl. unfold getInstances. simpl.
    rewrite get_forEach_.
    by destruct (JsMap.get pane (_instances s)) as [m|].
Qed.

Lemma override_no_calcParams s indicator paneId :
  Indicator.calcParams indicator = None ->
  snd (override s indicator paneId) = [].
Proof.
  intros Hnone. rewrite override_tasks.
  induction (matchedInstances s (Indicator.name indicator) paneId)
    as [|i l IH]; [done|].
  simpl. by rewrite calcParamsChanged_spec, Hnone.
Qed.

Lemma map_filter_nonempty {A B} (f : A -> bool) (g : A -> B) x l :
  x ∈ l -> f x = true -> map g (List.filter f l) <> [].
Proof.
  intros Hin Hf. induction Hin as [y l|y z l Hin IH]; simpl.
  - by rewrite Hf.
  - destruct (f z); simpl; [done | by apply IH].
Qed.

Lemma matchedInstances_elem s name paneId pane instance :
  selects paneId pane = true ->
  JsMap.get name (getInstances s pane) = Some instance ->
  instance ∈ matchedInstances s name paneId.
Proof.
  intros Hsel Hget.
  destruct (getInstances_get _ _ _ _ Hget) as (m & Hpane & Hinst).
  unfold matchedInstances, selectedPanes, selects in *.
  destruct paneId as [paneId|].
  - apply bool_decide_eq_true in Hsel. subst pane. rewrite Hpane. simpl.
    rewrite Hinst. apply list_elem_of_here.
  - apply list_elem_of_omap.
    assert (Hin : exists m', (pane, m') ∈ _instances s /\
                             JsMap.get pane (_instances s) = Some m').
    { clear Hget Hinst. revert Hpane. generalize (_instances s).
      intros l. induction l as [|[k v] l IH]; simpl; [done|].
      destruct (decide (k = pane)) as [->|Hne].
      - intros [= ->]. exists m. split; [apply list_elem_of_here | done].
      - intros H. destruct (IH H) as (m' & Hin & Hm').
        exists m'. split; [by apply list_elem_of_further | done]. }
    destruct Hin as (m' & Hin & Hm'). rewrite Hpane in Hm'.
    injection Hm' as <-. by exists (pane, m).
Qed.

(** C6. For an instance [instance] under [name] in pane [pane]: a
    configuration with only a [shortName] that differs from the instance's
    reports [(true, false)], and [override] with it recomputes nothing (it
    returns no flag, whichever panes are selected) while the instance gets the
    new short name; a configuration with only [calcParams] that differ reports
    [(true, true)], and [override] with it recomputes the instance and returns
    its flag. In general [calcParamsSuccess] is [true] exactly when the
    configuration has [calcParams] and they differ from the instance's, and a
    configuration without [calcParams] never makes [override] recompute. *)
Theorem override_recomputes_for_calcParams_only
    s pane name instance shortName calcParams :
  JsMap.get name (getInstances s pane) = Some instance ->
  shortName <> IndicatorTemplate.shortName instance ->
  calcParams <> IndicatorTemplate.calcParams instance ->
  let dataList := getDataList (_chartStore s) in
  let renamed := IndicatorTemplate.with_shortName shortName instance in
  let recomputed :=
    IndicatorTemplate.calcIndicator dataList
      (IndicatorTemplate.with_calcParams calcParams instance) in
  _overrideInstance instance (Indicator.onlyShortName name shortName)
  = (renamed, (true, false)) /\
  (forall paneId,
     snd (override s (Indicator.onlyShortName name shortName) paneId) = []) /\
  JsMap.get name
    (getInstances
       (fst (override s (Indicator.onlyShortName name shortName) (Some pane)))
       pane)
  = Some renamed /\
  _overrideInstance instance (Indicator.onlyCalcParams name calcParams)
  = (IndicatorTemplate.with_calcParams calcParams instance, (true, true)) /\
  override s (Indicator.onlyCalcParams name calcParams) (Some pane)
  = (setPane pane (JsMap.set name (fst recomputed) (getInstances s pane)) s,
     [snd recomputed]) /\
  (forall paneId,
     selects paneId pane = true ->
     snd (override s (Indicator.onlyCalcParams name calcParams) paneId)
     <> []) /\
  (forall indicator i,
     calcParamsChanged indicator i = true <->
     exists v, Indicator.calcParams indicator = Some v /\
               v <> IndicatorTemplate.calcParams i) /\
  (forall s' indicator paneId,
     Indicator.calcParams indicator = None ->
     snd (override s' indicator paneId) = []).
Proof.
  intros Hget Hsn Hcp dataList renamed recomputed.
  assert (Hshort :
    _overrideInstance instance (Indicator.onlyShortName name shortName)
    = (renamed, (true, false))).
  { rewrite overrideInstance_onlyShortName.
    unfold IndicatorTemplate.setShortName.
    by rewrite conditionalSet_differs. }
  assert (Hparams :
    _overrideInstance instance (Indicator.onlyCalcParams name calcParams)
    = (IndicatorTemplate.with_calcParams calcParams instance, (true, true))).
  { rewrite overrideInstance_onlyCalcParams.
    unfold IndicatorTemplate.setCalcParams.
    by rewrite conditionalSet_differs. }
  destruct (getInstances_get _ _ _ _ Hget) as (m & Hpane & Hinst).
  assert (Hm : getInstances s pane = m).
  { unfold getInstances. by rewrite Hpane. }
  split; [exact Hshort|]. split.
  { intros paneId. by apply override_no_calcParams. }
  split.
  { rewrite override_getInstances. simpl. rewrite bool_decide_eq_true_2 by done.
    pose proof (overridePane_get dataList
                  (Indicator.onlyShortName name shortName)
                  (getInstances s pane)) as Hover.
    simpl in Hover. fold dataList. rewrite Hover, Hget. simpl. f_equal.
    unfold overrideMatched, calcParamsChanged. by rewrite Hshort. }
  split; [exact Hparams|]. split.
  { rewrite (override_one_pane _ _ _ _ Hpane). simpl.
    unfold overridePane. simpl. rewrite Hinst, Hparams. simpl.
    fold dataList. rewrite Hm.
    by destruct (IndicatorTemplate.calcIndicator dataList
                   (IndicatorTemplate.with_calcParams calcParams instance)). }
  split.
  { intros paneId Hsel. rewrite override_tasks. simpl.
    pose proof (matchedInstances_elem _ _ _ _ _ Hsel Hget) as Hin.
    assert (Hchanged :
      calcParamsChanged (Indicator.onlyCalcParams name calcParams) instance
      = true).
    { unfold calcParamsChanged. by rewrite Hparams. }
    by eapply map_filter_nonempty. }
  split.
  { intros indicator i. apply calcParamsChanged_true_iff. }
  intros s' indicator paneId. apply override_no_calcParams.
Qed.

Lemma override_recomputes_for_calcParams_only_witness :
  JsMap.get "MA" (getInstances Sample.onePane "pane1")
  = Some Sample.MA_computed /\
  "avg" <> IndicatorTemplate.shortName Sample.MA_computed /\
  [10] <> IndicatorTemplate.calcParams Sample.MA_computed /\
  _overrideInstance Sample.MA_computed (Indicator.onlyShortName "MA" "avg")
  = (IndicatorTemplate.with_shortName "avg" Sample.MA_computed, (true, false)) /\
  snd (override Sample.onePane (Indicator.onlyShortName "MA" "avg")
         (Some "pane1")) = [] /\
  _overrideInstance Sample.MA_computed (Indicator.onlyCalcParams "MA" [10])
  = (IndicatorTemplate.with_calcParams [10] Sample.MA_computed, (true, true)) /\
  snd (override Sample.onePane (Indicator.onlyCalcParams "MA" [10])
         (Some "pane1")) = [true].
Proof.
  assert (H1 : JsMap.get "MA" (getInstances Sample.onePane "pane1")
               = Some Sample.MA_computed) by reflexivity.
  assert (H2 : "avg" <> IndicatorTemplate.shortName Sample.MA_computed)
    by discriminate.
  assert (H3 : [10] <> IndicatorTemplate.calcParams Sample.MA_computed)
    by discriminate.
  destruct (override_recomputes_for_calcParams_only
              Sample.onePane "pane1" "MA" Sample.MA_computed "avg" [10]
              H1 H2 H3) as (Ha & Hb & _ & Hc & Hd & _).
  split; [exact H1|]. split; [exact H2|]. split; [exact H3|].
  split; [exact Ha|]. split; [apply Hb|]. split; [exact Hc|].
  rewrite Hd. reflexivity.
Defined.

(** C10. [override] applies the overrides to every instance under the name in
    the panes it selects, also to those it does not recompute, and leaves the
    other panes as they were. The flags it returns are those of the matched
    instances whose [calcParamsSuccess] was [true], in the order of the
    panes: their number is the number of recomputed instances, at most the
    number of matched ones. *)
Theorem override_flags_of_recomputed_only s indicator paneId :
  let dataList := getDataList (_chartStore s) in
  let name := Indicator.name indicator in
  let matched := matchedInstances s name paneId in
  let recomputed := List.filter (calcParamsChanged indicator) matched in
  (forall pane,
     JsMap.get name (getInstances (fst (override s indicator paneId)) pane)
     = if selects paneId pane
       then overrideMatched dataList indicator
              <$> JsMap.get name (getInstances s pane)
       else JsMap.get name (getInstances s pane)) /\
  (forall i,
     overrideMatched dataList indicator i
     = if calcParamsChanged indicator i
       then fst (IndicatorTemplate.calcIndicator dataList
                   (fst (_overrideInstance i indicator)))
       else fst (_overrideInstance i indicator)) /\
  snd (override s indicator paneId)
  = map (recomputeFlag dataList indicator) recomputed /\
  length (snd (override s indicator paneId)) = length recomputed /\
  (length recomputed <= length matched)%nat.
Proof.
  intros dataList name matched recomputed. split.
  { intros pane. rewrite override_getInstances.
    destruct (selects paneId pane); [|done]. apply overridePane_get. }
  split; [done|]. split; [apply override_tasks|]. split.
  - rewrite override_tasks. apply length_map.
  - apply List.filter_length_le.
Qed.

(** On the sample table, after one more point arrived, "MA" is matched in two
    panes and both get the new short name, but only the one whose parameters
    change is recomputed: one flag for two matched instances, and the other
    instance keeps the result it had. *)
Example override_sample_two_matched_one_flag :
  let s := Sample.fourPanesMoreData in
  let after := fst (override s Sample.renameAndParams None) in
  length (matchedInstances s "MA" None) = 2%nat /\
  snd (override s Sample.renameAndParams None) = [true] /\
  IndicatorTemplate.shortName
    <$> JsMap.get "MA" (getInstances after "pane1") = Some "avg" /\
  IndicatorTemplate.shortName
    <$> JsMap.get "MA" (getInstances after "pane4") = Some "avg" /\
  IndicatorTemplate.result
    <$> JsMap.get "MA" (getInstances after "pane1")
  = Some [20; 30; 40; 50] /\
  IndicatorTemplate.result
    <$> JsMap.get "MA" (getInstances after "pane4") = Some [20; 30; 40].
Proof. repeat split; reflexivity. Qed.

(** C3, at a fresh "MA" instance, whose bounds are both [null], and the
    configuration [{ name: "MA", maxValue: 100 }]. The setter called is
    [setMinValue]: [minValue] becomes 100 and [maxValue] stays [null]. *)
Theorem override_maxValue_assigns_minValue :
  let outcome :=
    _overrideInstance Sample.MA (Indicator.onlyMaxValue "MA" (Some 100)) in
  IndicatorTemplate.minValue Sample.MA = None /\
  IndicatorTemplate.maxValue Sample.MA = None /\
  outcome = (IndicatorTemplate.with_minValue (Some 100) Sample.MA, (true, false)) /\
  IndicatorTemplate.minValue (fst outcome) = Some 100 /\
  IndicatorTemplate.maxValue (fst outcome) = None.
Proof. repeat split; reflexivity. Qed.

(** The same for every instance and every bound: [minValue] takes the value
    given for [maxValue], and [maxValue] keeps its own. *)
Lemma overrideInstance_onlyMaxValue_fields instance name v :
  let after := fst (_overrideInstance instance (Indicator.onlyMaxValue name v)) in
  IndicatorTemplate.minValue after = v /\
  IndicatorTemplate.maxValue after = IndicatorTemplate.maxValue instance.
Proof.
  cbv zeta. rewrite overrideInstance_onlyMaxValue.
  unfold IndicatorTemplate.setMinValue, IndicatorTemplate.conditionalSet.
  case_decide; simpl; split; done.
Qed.

(** C5, at a fresh "MA" instance and the configuration
    [{ name: "MA", minValue: 1, maxValue: 2 }]. Both bounds go to [minValue],
    so the second application finds [minValue] at 2, sets it to 1 and then to
    2 again, and reports a change; the instance it leaves is the one the first
    application left. *)
Theorem override_twice_reports_change_again :
  let first := _overrideInstance Sample.MA Sample.minAndMax in
  let second := _overrideInstance (fst first) Sample.minAndMax in
  snd first = (true, false) /\
  snd second = (true, false) /\
  fst second = fst first /\
  IndicatorTemplate.minValue (fst first) = Some 2 /\
  IndicatorTemplate.maxValue (fst first) = None.
Proof. repeat split; reflexivity. Qed.

(** ** [setSeriesPrecision] *)

Lemma with_precision_same instance :
  IndicatorTemplate.with_precision (IndicatorTemplate.precision instance)
    instance = instance.
Proof. by destruct instance. Qed.

Lemma setPrecision_assigns v flag instance :
  fst (IndicatorTemplate.setPrecision v flag instance)
  = IndicatorTemplate.with_precision v instance.
Proof.
  unfold IndicatorTemplate.setPrecision.
  apply conditionalSet_assigns, with_precision_same.
Qed.

Lemma getInstances_forEach_ s f pane :
  getInstances (with_instances (JsMap.forEach_ f (_instances s)) s) pane
  = default JsMap.empty (f <$> JsMap.get pane (_instances s)).
Proof. unfold getInstances. simpl. by rewrite get_forEach_. Qed.

(** C8. [setSeriesPrecision] leaves under every pane and name the instance
    that was there, with [precision.price] as its precision when it is
    classified [PRICE], [precision.volume] when [VOLUME], and untouched
    otherwise. No pane or name comes or goes, no [result] changes, and the
    chart store and the templates are as before. *)
Theorem setSeriesPrecision_by_series s precision :
  let after := setSeriesPrecision s precision in
  let target instance :=
    match IndicatorTemplate.series instance with
    | PRICE => IndicatorTemplate.with_precision (price precision) instance
    | VOLUME => IndicatorTemplate.with_precision (volume precision) instance
    | NORMAL => instance
    end in
  (forall pane name,
     JsMap.get name (getInstances after pane)
     = target <$> JsMap.get name (getInstances s pane)) /\
  (forall pane name,
     IndicatorTemplate.result <$> JsMap.get name (getInstances after pane)
     = IndicatorTemplate.result <$> JsMap.get name (getInstances s pane)) /\
  JsMap.keys (_instances after) = JsMap.keys (_instances s) /\
  (forall pane,
     JsMap.keys (getInstances after pane) = JsMap.keys (getInstances s pane)) /\
  _chartStore after = _chartStore s /\
  _templates after = _templates s.
Proof.
  intros after target.
  assert (Hpane : forall pane,
            getInstances after pane
            = JsMap.forEach_ target (getInstances s pane)).
  { intros pane. unfold after, setSeriesPrecision.
    rewrite getInstances_forEach_. unfold getInstances.
    destruct (JsMap.get pane (_instances s)) as [m|]; simpl; [|done].
    unfold JsMap.forEach_. apply map_ext. intros [k i]. simpl. f_equal.
    unfold target. rewrite !setPrecision_assigns.
    by destruct (IndicatorTemplate.series i) eqn:Hs; simpl; rewrite ?Hs. }
  assert (Hget : forall pane name,
            JsMap.get name (getInstances after pane)
            = target <$> JsMap.get name (getInstances s pane)).
  { intros pane name. by rewrite Hpane, get_forEach_. }
  split; [exact Hget|]. split.
  { intros pane name. rewrite Hget.
    destruct (JsMap.get name (getInstances s pane)) as [i|]; simpl; [|done].
    unfold target. by destruct (IndicatorTemplate.series i). }
  split; [apply keys_forEach_|]. split; [|done].
  intros pane. rewrite Hpane. apply keys_forEach_.
Qed.

Example setSeriesPrecision_sample :
  let after := setSeriesPrecision Sample.fourPanes (mkPrecision 2 1) in
  IndicatorTemplate.precision <$> JsMap.get "MA" (getInstances after "pane1")
  = Some 2%nat /\
  IndicatorTemplate.precision <$> JsMap.get "MA" (getInstances after "pane4")
  = Some 2%nat /\
  IndicatorTemplate.precision <$> JsMap.get "VOL" (getInstances after "pane2")
  = Some 1%nat /\
  JsMap.get "MACD" (getInstances after "pane3") = Some Sample.MACD_computed.
Proof. repeat split; reflexivity. Qed.

(** ** [calcInstance] *)

Lemma calcInstance_all s paneId :
  let dataList := getDataList (_chartStore s) in
  calcInstance s None paneId
  = (with_instances
       (JsMap.forEach_
          (JsMap.forEach_
             (fun i => fst (IndicatorTemplate.calcIndicator dataList i)))
          (_instances s)) s,
     map (fun i => snd (IndicatorTemplate.calcIndicator dataList i))
       (allInstances s)).
Proof.
  simpl. unfold calcInstance, allInstances.
  set (dataList := getDataList (_chartStore s)).
  set (callback := fun instance : IndicatorTemplate.t =>
         let '(instance0, ok) :=
           IndicatorTemplate.calcIndicator dataList instance in
         (instance0, [ok])).
  assert (Hfst : forall i,
            fst (callback i)
            = fst (IndicatorTemplate.calcIndicator dataList i)).
  { intros i. unfold callback.
    by destruct (IndicatorTemplate.calcIndicator dataList i). }
  assert (Hsnd : forall i,
            snd (callback i)
            = [snd (IndicatorTemplate.calcIndicator dataList i)]).
  { intros i. unfold callback.
    by destruct (IndicatorTemplate.calcIndicator dataList i). }
  rewrite forEach_pair. f_equal.
  - f_equal. unfold JsMap.forEach_ at 1 3. apply map_ext. intros [k m]. simpl.
    f_equal. rewrite forEach_fst. unfold JsMap.forEach_. apply map_ext.
    intros [k' i]. simpl. by rewrite Hfst.
  - induction (JsMap.values (_instances s)) as [|m panes IH]; simpl; [done|].
    rewrite IH, map_app. f_equal. rewrite forEach_snd.
    induction (JsMap.values m) as [|i l IHl]; simpl; [done|].
    by rewrite Hsnd, IHl.
Qed.

(** C9. Without a name, [calcInstance] does the same with and without a
    [paneId]: it recomputes every instance of every pane and returns one flag
    for each, in the order of the table. *)
Theorem calcInstance_without_name_ignores_pane s paneId :
  let dataList := getDataList (_chartStore s) in
  let after := fst (calcInstance s None (Some paneId)) in
  calcInstance s None (Some paneId) = calcInstance s None None /\
  (forall pane name,
     JsMap.get name (getInstances after pane)
     = (fun i => fst (IndicatorTemplate.calcIndicator dataList i))
         <$> JsMap.get name (getInstances s pane)) /\
  snd (calcInstance s None (Some paneId))
  = map (fun i => snd (IndicatorTemplate.calcIndicator dataList i))
      (allInstances s) /\
  length (snd (calcInstance s None (Some paneId))) = length (allInstances s).
Proof.
  intros dataList after. split; [done|].
  unfold after. rewrite calcInstance_all. simpl. fold dataList.
  split; [|split; [done | apply length_map]].
  intros pane name. rewrite getInstances_forEach_. unfold getInstances.
  destruct (JsMap.get pane (_instances s)) as [m|]; simpl; [|done].
  apply get_forEach_.
Qed.

(** On the sample table, after one more point arrived, asking for "pane1"
    without a name also recomputes the instance of "pane2", and returns four
    flags. *)
Example calcInstance_sample_pane_ignored :
  let s := Sample.fourPanesMoreData in
  let after := fst (calcInstance s None (Some "pane1")) in
  IndicatorTemplate.result <$> JsMap.get "VOL" (getInstances s "pane2")
  = Some [15; 25; 35] /\
  IndicatorTemplate.result <$> JsMap.get "VOL" (getInstances after "pane2")
  = Some [15; 25; 35; 45] /\
  snd (calcInstance s None (Some "pane1")) = [true; true; true; true].
Proof. repeat split; reflexivity. Qed.

(** * Further properties *)

(** ** [JsMap], continued *)

Section JsMapMore.
Context {V : Type}.
Implicit Types (m : JsMap.t V) (k : string) (v : V).

Lemma get_elem k v m : JsMap.get k m = Some v -> (k, v) ∈ m.
Proof.
  induction m as [|[k' v'] m IH]; simpl; [done|].
  destruct (decide (k' = k)) as [->|Hne].
  - intros [= ->]. apply list_elem_of_here.
  - intros H. apply list_elem_of_further. by apply IH.
Qed.

Lemma get_None_keys k m : JsMap.get k m = None <-> k ∉ JsMap.keys m.
Proof.
  induction m as [|[k' v'] m IH]; simpl.
  - split; [intros _; apply not_elem_of_nil | done].
  - rewrite not_elem_of_cons. destruct (decide (k' = k)) as [->|Hne].
    + split; [done | by intros [? _]].
    + rewrite IH. split; [by intros ?; split | by intros [_ ?]].
Qed.

Lemma set_get_same k v m : JsMap.get k m = Some v -> JsMap.set k v m = m.
Proof.
  induction m as [|[k' v'] m IH]; simpl; [done|].
  destruct (decide (k' = k)) as [->|Hne].
  - by intros [= ->].
  - intros H. by rewrite IH.
Qed.

Lemma set_absent k v m :
  JsMap.get k m = None -> JsMap.set k v m = (m ++ [(k, v)])%list.
Proof.
  induction m as [|[k' v'] m IH]; simpl; [done|].
  destruct (decide (k' = k)) as [->|Hne]; [done|].
  intros H. by rewrite IH.
Qed.

Lemma keys_set_present k v m :
  is_Some (JsMap.get k m) -> JsMap.keys (JsMap.set k v m) = JsMap.keys m.
Proof.
  induction m as [|[k' v'] m IH]; simpl; [by intros [? ?]|].
  destruct (decide (k' = k)) as [->|Hne]; simpl; [done|].
  intros H. by rewrite IH.
Qed.

Lemma size_set_present k v m :
  is_Some (JsMap.get k m) -> JsMap.size (JsMap.set k v m) = JsMap.size m.
Proof.
  intros H. unfold JsMap.size.
  rewrite <- (length_map fst (JsMap.set k v m)), <- (length_map fst m).
  f_equal. by apply keys_set_present.
Qed.

Lemma NoDup_keys_set k v m :
  NoDup (JsMap.keys m) -> NoDup (JsMap.keys (JsMap.set k v m)).
Proof.
  intros Hm. destruct (JsMap.get k m) as [v'|] eqn:Hget.
  - by rewrite keys_set_present.
  - rewrite set_absent by done. unfold JsMap.keys. rewrite map_app. simpl.
    apply NoDup_app. split; [done|]. split.
    + intros x Hx Hk. apply list_elem_of_singleton in Hk. subst x.
      by apply get_None_keys in Hget.
    + apply NoDup_singleton.
Qed.

Lemma delete_absent k m : JsMap.get k m = None -> JsMap.delete k m = m.
Proof.
  induction m as [|[k' v'] m IH]; simpl; [done|].
  destruct (decide (k' = k)) as [->|Hne]; [done|].
  intros H. by rewrite IH.
Qed.

Lemma delete_set_absent k v m :
  JsMap.get k m = None -> JsMap.delete k (JsMap.set k v m) = m.
Proof.
  induction m as [|[k' v'] m IH]; simpl.
  - by rewrite decide_True.
  - destruct (decide (k' = k)) as [->|Hne]; [done|]. simpl.
    rewrite decide_False by done. intros H. by rewrite IH.
Qed.

Lemma get_delete_ne k k' m :
  k <> k' -> JsMap.get k' (JsMap.delete k m) = JsMap.get k' m.
Proof.
  intros Hne. induction m as [|[k0 v0] m IH]; simpl; [done|].
  destruct (decide (k0 = k)) as [->|Hk]; simpl.
  - by rewrite decide_False.
  - by rewrite IH.
Qed.

Lemma get_delete_eq k m :
  NoDup (JsMap.keys m) -> JsMap.get k (JsMap.delete k m) = None.
Proof.
  induction m as [|[k0 v0] m IH]; simpl; [done|].
  intros Hm. apply NoDup_cons in Hm as [Hk0 Hm].
  destruct (decide (k0 = k)) as [->|Hk]; simpl.
  - by apply get_None_keys.
  - rewrite decide_False by done. by apply IH.
Qed.

Lemma keys_delete_subseteq k m x :
  x ∈ JsMap.keys (JsMap.delete k m) -> x ∈ JsMap.keys m.
Proof.
  induction m as [|[k0 v0] m IH]; simpl; [done|].
  destruct (decide (k0 = k)) as [->|Hk]; simpl.
  - apply list_elem_of_further.
  - rewrite !elem_of_cons. intros [->|H]; [by left | right; by apply IH].
Qed.

Lemma NoDup_keys_delete k m :
  NoDup (JsMap.keys m) -> NoDup (JsMap.keys (JsMap.delete k m)).
Proof.
  induction m as [|[k0 v0] m IH]; simpl; [done|].
  intros Hm. apply NoDup_cons in Hm as [Hk0 Hm].
  destruct (decide (k0 = k)) as [->|Hk]; simpl; [done|].
  apply NoDup_cons. split; [|by apply IH].
  intros Hin. apply Hk0. by eapply keys_delete_subseteq.
Qed.

Lemma Forall_set (Q : V -> Prop) k v m :
  Forall (fun kv => Q (snd kv)) m -> Q v ->
  Forall (fun kv => Q (snd kv)) (JsMap.set k v m).
Proof.
  intros Hm Hv. induction Hm as [|[k' v'] m Hv' Hm IH]; simpl.
  - by apply Forall_cons.
  - destruct (decide (k' = k)); apply Forall_cons; by split.
Qed.

Lemma Forall_delete (Q : V -> Prop) k m :
  Forall (fun kv => Q (snd kv)) m ->
  Forall (fun kv => Q (snd kv)) (JsMap.delete k m).
Proof.
  intros Hm. induction Hm as [|[k' v'] m Hv' Hm IH]; simpl; [done|].
  destruct (decide (k' = k)); [done | by apply Forall_cons].
Qed.

Lemma Forall_get (Q : V -> Prop) k v m :
  Forall (fun kv => Q (snd kv)) m -> JsMap.get k m = Some v -> Q v.
Proof.
  intros Hm Hget. apply get_elem in Hget.
  rewrite Forall_forall in Hm. exact (Hm _ Hget).
Qed.

Lemma Forall_forEach_ (Q : V -> Prop) (f : V -> V) m :
  (forall v, Q v -> Q (f v)) ->
  Forall (fun kv => Q (snd kv)) m ->
  Forall (fun kv => Q (snd kv)) (JsMap.forEach_ f m).
Proof.
  intros Hf Hm. induction Hm as [|[k' v'] m Hv' Hm IH]; simpl; [done|].
  apply Forall_cons. split; [by apply Hf | exact IH].
Qed.

Lemma forEach__id (f : V -> V) m :
  (forall v, f v = v) -> JsMap.forEach_ f m = m.
Proof.
  intros Hf. induction m as [|[k v] m IH]; simpl; [done|].
  by rewrite Hf, IH.
Qed.

Lemma forEach__ext (f g : V -> V) m :
  (forall v, f v = g v) -> JsMap.forEach_ f m = JsMap.forEach_ g m.
Proof.
  intros Hfg. unfold JsMap.forEach_. apply map_ext. intros [k v]. simpl.
  by rewrite Hfg.
Qed.

Lemma forEach__compose (f g : V -> V) m :
  JsMap.forEach_ f (JsMap.forEach_ g m) = JsMap.forEach_ (fun v => f (g v)) m.
Proof. unfold JsMap.forEach_. by rewrite map_map. Qed.

Lemma delete_singleton_empty k m :
  JsMap.delete k m = [] -> JsMap.has k m = true -> exists v, m = [(k, v)].
Proof.
  unfold JsMap.has. destruct m as [|[k' v'] m]; simpl; [done|].
  destruct (decide (k' = k)) as [->|Hne]; [|done].
  intros -> _. by exists v'.
Qed.

End JsMapMore.

(** ** The table, continued *)

Lemma with_instances_same s : with_instances (_instances s) s = s.
Proof. by destruct s. Qed.

Lemma setPane_same s paneId paneInstances :
  JsMap.get paneId (_instances s) = Some paneInstances ->
  setPane paneId paneInstances s = s.
Proof.
  intros Hget. unfold setPane. rewrite set_get_same by done.
  apply with_instances_same.
Qed.

Lemma hasInstances_setPane s paneId paneInstances :
  hasInstances (setPane paneId paneInstances s) paneId = true.
Proof.
  unfold hasInstances, setPane, JsMap.has. simpl. by rewrite get_set_eq.
Qed.

Lemma hasInstances_setPane_ne s paneId paneId' paneInstances :
  paneId <> paneId' ->
  hasInstances (setPane paneId paneInstances s) paneId'
  = hasInstances s paneId'.
Proof.
  intros Hne. unfold hasInstances, setPane, JsMap.has. simpl.
  by rewrite get_set_ne.
Qed.

Lemma hasInstances_false_get s paneId :
  hasInstances s paneId = false <-> JsMap.get paneId (_instances s) = None.
Proof.
  unfold hasInstances, JsMap.has.
  by destruct (JsMap.get paneId (_instances s)).
Qed.

(** ** [addInstance], continued *)

(** What [addInstance] can leave: the store as it was, or the store with the
    pane's map replaced. *)
Lemma addInstance_store s paneId indicator isStack :
  fst (addInstance s paneId indicator isStack) = s \/
  exists paneInstances,
    fst (addInstance s paneId indicator isStack)
    = setPane paneId paneInstances s /\
    (JsMap.size paneInstances <= 1)%nat.
Proof.
  destruct (JsMap.get paneId (_instances s)) as [m|] eqn:Hpane.
  - left. by rewrite (addInstance_existing_pane _ _ _ _ _ Hpane).
  - right.
    destruct (JsMap.get (Indicator.name indicator) (_templates s))
      as [T|] eqn:Htpl.
    + rewrite (addInstance_new_pane _ _ _ _ _ Hpane Htpl). simpl.
      eexists. split; [reflexivity | simpl; lia].
    + rewrite addInstance_unknown_template by done. simpl.
      exists JsMap.empty. split; [reflexivity | simpl; lia].
Qed.

(** X1. [isStack] has no effect: with [true] and with [false], [addInstance]
    leaves the same store and gives the same answer. *)
Theorem addInstance_isStack_irrelevant s paneId indicator :
  addInstance s paneId indicator true = addInstance s paneId indicator false.
Proof.
  unfold addInstance.
  destruct (JsMap.get paneId (_instances s)) as [m|]; simpl; [done|].
  destruct (JsMap.get (Indicator.name indicator) (_templates s)) as [T|];
    [|done].
  by destruct (_overrideInstance T indicator).
Qed.



(** X4. Whatever its outcome, [addInstance] on a pane leaves the other panes,
    the templates and the chart store as they were. *)
Theorem addInstance_other_panes s paneId indicator isStack other :
  paneId <> other ->
  let after := fst (addInstance s paneId indicator isStack) in
  getInstances after other = getInstances s other /\
  hasInstances after other = hasInstances s other /\
  _templates after = _templates s /\
  _chartStore after = _chartStore s.
Proof.
  intros Hne after. unfold after.
  destruct (addInstance_store s paneId indicator isStack)
    as [->|(m & -> & _)]; [done|].
  split; [by apply getInstances_setPane_ne|].
  split; [by apply hasInstances_setPane_ne | done].
Qed.

Lemma addInstance_other_panes_witness :
  "pane5" <> "pane2" /\
  getInstances
    (fst (addInstance Sample.fourPanes "pane5" (Indicator.only "MA") true))
    "pane2"
  = getInstances Sample.fourPanes "pane2".
Proof.
  assert (H : "pane5" <> "pane2") by discriminate.
  split; [exact H|].
  apply (addInstance_other_panes Sample.fourPanes "pane5"
           (Indicator.only "MA") true "pane2" H).
Defined.

(** ** [removeInstance] *)

Lemma size_delete_present {V} k (m : JsMap.t V) :
  JsMap.has k m = true -> S (JsMap.size (JsMap.delete k m)) = JsMap.size m.
Proof.
  unfold JsMap.has, JsMap.size.
  induction m as [|[k' v'] m IH]; simpl; [done|].
  destruct (decide (k' = k)) as [->|Hne]; simpl; [done|].
  intros H. by rewrite IH.
Qed.

Lemma removeInstance_absent_pane s paneId name :
  JsMap.get paneId (_instances s) = None ->
  removeInstance s paneId name = (s, false).
Proof. intros Hget. unfold removeInstance. by rewrite Hget. Qed.

Lemma removeInstance_existing_pane s paneId name paneInstances :
  JsMap.get paneId (_instances s) = Some paneInstances ->
  let left := fst (removedFrom name paneInstances) in
  removeInstance s paneId name
  = (if decide (JsMap.size left = 0%nat)
     then with_instances
            (JsMap.delete paneId (JsMap.set paneId left (_instances s))) s
     else setPane paneId left s,
     snd (removedFrom name paneInstances)).
Proof.
  intros Hget. unfold removeInstance, removedFrom. rewrite Hget.
  destruct name as [name|]; [destruct (JsMap.has name paneInstances)|];
    simpl; first [by case_decide | done].
Qed.

(** X5. [removeInstance] with a name the pane does not hold answers [false]
    and leaves the store as it was, provided the pane, if it has an entry, is
    not empty. *)
Theorem removeInstance_missing_name s paneId name :
  JsMap.has name (getInstances s paneId) = false ->
  (hasInstances s paneId = true -> getInstances s paneId <> []) ->
  removeInstance s paneId (Some name) = (s, false).
Proof.
  intros Hname Hpane.
  destruct (JsMap.get paneId (_instances s)) as [m|] eqn:Hget.
  - assert (Hm : getInstances s paneId = m).
    { unfold getInstances. by rewrite Hget. }
    rewrite Hm in *.
    rewrite (removeInstance_existing_pane _ _ _ _ Hget). simpl.
    rewrite Hname. simpl.
    rewrite decide_False.
    + by rewrite setPane_same.
    + intros Hsize. apply Hpane.
      * unfold hasInstances, JsMap.has. by rewrite Hget.
      * by destruct m.
  - by apply removeInstance_absent_pane.
Qed.

Lemma removeInstance_missing_name_witness :
  JsMap.has "VOL" (getInstances Sample.fourPanes "pane1") = false /\
  removeInstance Sample.fourPanes "pane1" (Some "VOL")
  = (Sample.fourPanes, false).
Proof.
  split; [reflexivity|].
  apply (removeInstance_missing_name Sample.fourPanes "pane1" "VOL").
  - reflexivity.
  - intros _. discriminate.
Defined.

(** X6. On a pane that has no entry, [removeInstance] with the name just
    added takes the store back to what it was before [addInstance], and so
    does [removeInstance] without a name. When the name had no template, the
    empty pane that [addInstance] left is swept all the same, although the
    answer with the name is [false]. *)
Theorem removeInstance_undoes_addInstance s paneId indicator isStack :
  JsMap.get paneId (_instances s) = None ->
  let added := fst (addInstance s paneId indicator isStack) in
  removeInstance added paneId None = (s, true) /\
  removeInstance added paneId (Some (Indicator.name indicator))
  = (s, JsMap.has (Indicator.name indicator) (_templates s)).
Proof.
  intros Hpane added.
  assert (Hswept : forall m name r,
    removedFrom name m = ([], r) ->
    removeInstance (setPane paneId m s) paneId name = (s, r)).
  { intros m name r Hr.
    assert (Hget : JsMap.get paneId (_instances (setPane paneId m s))
                   = Some m).
    { unfold setPane. simpl. apply get_set_eq. }
    rewrite (removeInstance_existing_pane _ _ _ _ Hget). rewrite Hr. simpl.
    unfold setPane. simpl. rewrite set_set_eq.
    rewrite delete_set_absent by done. by destruct s. }
  unfold added.
  destruct (JsMap.get (Indicator.name indicator) (_templates s))
    as [T|] eqn:Htpl.
  - rewrite (addInstance_new_pane _ _ _ _ _ Hpane Htpl). simpl.
    split; apply Hswept; [done|].
    unfold removedFrom, JsMap.has. simpl. rewrite !decide_True by done.
    unfold JsMap.has. by rewrite Htpl.
  - rewrite addInstance_unknown_template by done. simpl.
    split; apply Hswept; [done|].
    unfold removedFrom, JsMap.has. simpl. by rewrite Htpl.
Qed.

Lemma removeInstance_undoes_addInstance_witness :
  JsMap.get "pane1" (_instances Sample.registered) = None /\
  removeInstance
    (fst (addInstance Sample.registered "pane1" (Indicator.only "MA") true))
    "pane1" (Some "MA")
  = (Sample.registered, true) /\
  removeInstance
    (fst (addInstance Sample.fresh "pane1" (Indicator.only "MA") true))
    "pane1" (Some "MA")
  = (Sample.fresh, false).
Proof.
  split; [reflexivity|]. split.
  - apply (removeInstance_undoes_addInstance Sample.registered "pane1"
             (Indicator.only "MA") true). reflexivity.
  - apply (removeInstance_undoes_addInstance Sample.fresh "pane1"
             (Indicator.only "MA") true). reflexivity.
Defined.

(** X7. When keys are unique, removing a name the pane holds answers [true];
    afterwards the pane does not hold the name, holds every other name with
    the instance it had, and has an entry in the table exactly when it held
    more than that one instance. *)
Theorem removeInstance_by_name s paneId name instance :
  uniqueKeys s ->
  JsMap.get name (getInstances s paneId) = Some instance ->
  let after := fst (removeInstance s paneId (Some name)) in
  snd (removeInstance s paneId (Some name)) = true /\
  JsMap.get name (getInstances after paneId) = None /\
  (forall other,
     other <> name ->
     JsMap.get other (getInstances after paneId)
     = JsMap.get other (getInstances s paneId)) /\
  hasInstances after paneId
  = bool_decide (JsMap.size (getInstances s paneId) <> 1%nat).
Proof.
  intros [Hpanes Hnames] Hget after.
  destruct (getInstances_get _ _ _ _ Hget) as (m & Hpane & Hinst).
  assert (Hm : getInstances s paneId = m).
  { unfold getInstances. by rewrite Hpane. }
  assert (Hhas : JsMap.has name m = true).
  { unfold JsMap.has. by rewrite Hinst. }
  assert (Hnodup : NoDup (JsMap.keys m)).
  { exact (Forall_get (fun m => NoDup (JsMap.keys m)) _ _ _ Hnames Hpane). }
  pose proof (size_delete_present _ _ Hhas) as Hsize.
  unfold after. rewrite (removeInstance_existing_pane _ _ _ _ Hpane), Hm.
  unfold removedFrom. rewrite Hhas. simpl.
  split; [done|].
  destruct (decide (JsMap.size (JsMap.delete name m) = 0%nat)) as [He|Hne];
    simpl.
  - assert (Hgone : getInstances
                      (with_instances
                         (JsMap.delete paneId
                            (JsMap.set paneId (JsMap.delete name m)
                               (_instances s))) s) paneId = []).
    { unfold getInstances. simpl.
      by rewrite get_delete_eq by by apply NoDup_keys_set. }
    rewrite Hgone.
    assert (Hempty : JsMap.delete name m = []).
    { by destruct (JsMap.delete name m). }
    destruct (delete_singleton_empty _ _ Hempty Hhas) as [v ->].
    split; [done|]. split.
    + intros other Hother. simpl. by rewrite decide_False.
    + unfold hasInstances, JsMap.has. simpl.
      by rewrite get_delete_eq by by apply NoDup_keys_set.
  - rewrite getInstances_setPane, hasInstances_setPane.
    split; [by apply get_delete_eq|]. split.
    + intros other Hother. by apply get_delete_ne.
    + symmetry. apply bool_decide_eq_true_2. lia.
Qed.

Lemma removeInstance_by_name_witness :
  uniqueKeys Sample.fourPanes /\
  JsMap.get "VOL" (getInstances Sample.fourPanes "pane2")
  = Some Sample.VOL_computed /\
  snd (removeInstance Sample.fourPanes "pane2" (Some "VOL")) = true /\
  hasInstances (fst (removeInstance Sample.fourPanes "pane2" (Some "VOL")))
    "pane2"
  = false.
Proof.
  assert (H1 : uniqueKeys Sample.fourPanes).
  { split; apply (bool_decide_unpack _); vm_compute; reflexivity. }
  assert (H2 : JsMap.get "VOL" (getInstances Sample.fourPanes "pane2")
               = Some Sample.VOL_computed) by reflexivity.
  destruct (removeInstance_by_name Sample.fourPanes "pane2" "VOL"
              Sample.VOL_computed H1 H2) as (Ha & _ & _ & Hb).
  split; [exact H1|]. split; [exact H2|]. split; [exact Ha|]. exact Hb.
Defined.

(** X8. When pane identifiers are unique, [removeInstance] without a name on
    a pane that has an entry answers [true] and removes the entry:
    [hasInstances] is [false] afterwards and [getInstances] gives an empty
    map. *)
Theorem removeInstance_whole_pane s paneId :
  NoDup (JsMap.keys (_instances s)) ->
  hasInstances s paneId = true ->
  let after := fst (removeInstance s paneId None) in
  snd (removeInstance s paneId None) = true /\
  hasInstances after paneId = false /\
  getInstances after paneId = [].
Proof.
  intros Hpanes Hhas after.
  apply has_true_get in Hhas as [m Hpane].
  unfold after. rewrite (removeInstance_existing_pane _ _ _ _ Hpane). simpl.
  assert (Hgone : JsMap.get paneId
                    (JsMap.delete paneId
                       (JsMap.set paneId (JsMap.clear m) (_instances s)))
                  = None).
  { by rewrite get_delete_eq by by apply NoDup_keys_set. }
  split; [done|]. split.
  - by apply hasInstances_false_get.
  - unfold getInstances. simpl. by rewrite Hgone.
Qed.

Lemma removeInstance_whole_pane_witness :
  NoDup (JsMap.keys (_instances Sample.fourPanes)) /\
  hasInstances Sample.fourPanes "pane3" = true /\
  hasInstances (fst (removeInstance Sample.fourPanes "pane3" None)) "pane3"
  = false.
Proof.
  assert (H1 : NoDup (JsMap.keys (_instances Sample.fourPanes))).
  { apply (bool_decide_unpack _); vm_compute; reflexivity. }
  split; [exact H1|]. split; [reflexivity|].
  apply (removeInstance_whole_pane Sample.fourPanes "pane3" H1 eq_refl).
Defined.

(** X9. [removeInstance] on a pane leaves the other panes, the templates and
    the chart store as they were. *)
Theorem removeInstance_other_panes s paneId name other :
  paneId <> other ->
  let after := fst (removeInstance s paneId name) in
  getInstances after other = getInstances s other /\
  hasInstances after other = hasInstances s other /\
  _templates after = _templates s /\
  _chartStore after = _chartStore s.
Proof.
  intros Hne after. unfold after.
  destruct (JsMap.get paneId (_instances s)) as [m|] eqn:Hpane.
  - rewrite (removeInstance_existing_pane _ _ _ _ Hpane). simpl.
    case_decide; simpl.
    + unfold getInstances, hasInstances, JsMap.has. simpl.
      by rewrite get_delete_ne, get_set_ne by done.
    + split; [by apply getInstances_setPane_ne|].
      split; [by apply hasInstances_setPane_ne | done].
  - by rewrite removeInstance_absent_pane.
Qed.

Lemma removeInstance_other_panes_witness :
  "pane2" <> "pane1" /\
  getInstances (fst (removeInstance Sample.fourPanes "pane2" None)) "pane1"
  = getInstances Sample.fourPanes "pane1".
Proof.
  assert (H : "pane2" <> "pane1") by discriminate.
  split; [exact H|].
  apply (removeInstance_other_panes Sample.fourPanes "pane2" None "pane1" H).
Defined.

(** ** The shape of the table *)

Lemma delete_set {V} k (v : V) (m : JsMap.t V) :
  JsMap.delete k (JsMap.set k v m) = JsMap.delete k m.
Proof.
  induction m as [|[k' v'] m IH]; simpl.
  - by rewrite decide_True.
  - destruct (decide (k' = k)) as [->|Hne]; simpl.
    + by rewrite decide_True.
    + rewrite decide_False by done. by rewrite IH.
Qed.

Lemma shape_setPane s paneId paneInstances paneInstances' :
  JsMap.get paneId (_instances s) = Some paneInstances ->
  JsMap.keys paneInstances' = JsMap.keys paneInstances ->
  shape (setPane paneId paneInstances' s) = shape s.
Proof.
  unfold shape, setPane. simpl. generalize (_instances s). intros m Hget Hk.
  induction m as [|[k v] m IH]; simpl in *; [done|].
  destruct (decide (k = paneId)) as [->|Hne]; simpl.
  - injection Hget as ->. by rewrite Hk.
  - by rewrite IH.
Qed.

Lemma shape_forEach_ s f :
  (forall m, JsMap.keys (f m) = JsMap.keys m) ->
  shape (with_instances (JsMap.forEach_ f (_instances s)) s) = shape s.
Proof.
  intros Hf. unfold shape, JsMap.forEach_. simpl. rewrite map_map.
  apply map_ext. intros [k m]. simpl. by rewrite Hf.
Qed.

Lemma keys_calcNamed dataList name m :
  JsMap.keys (fst (calcNamed dataList name m)) = JsMap.keys m.
Proof.
  unfold calcNamed. destruct (JsMap.get name m) as [i|] eqn:Hget; [|done].
  destruct (IndicatorTemplate.calcIndicator dataList i). simpl.
  by apply keys_set_present.
Qed.

Lemma keys_overridePane dataList indicator m :
  JsMap.keys (fst (overridePane dataList indicator m)) = JsMap.keys m.
Proof.
  rewrite overridePane_spec.
  destruct (JsMap.get (Indicator.name indicator) m) as [i|] eqn:Hget;
    [|done].
  simpl. by apply keys_set_present.
Qed.

Lemma calcInstance_one s name paneId :
  calcInstance s (Some name) (Some paneId)
  = match JsMap.get name (getInstances s paneId) with
    | Some instance =>
        let computed :=
          IndicatorTemplate.calcIndicator (getDataList (_chartStore s))
            instance in
        (setPane paneId (JsMap.set name (fst computed) (getInstances s paneId))
           s,
         [snd computed])
    | None => (s, [])
    end.
Proof.
  unfold calcInstance, getInstances, optionalHas, JsMap.has, calcNamed.
  destruct (JsMap.get paneId (_instances s)) as [m|]; simpl; [|done].
  destruct (JsMap.get name m) as [i|]; simpl; [|done].
  by destruct (IndicatorTemplate.calcIndicator _ i).
Qed.

Lemma calcInstance_named s name :
  let callback := calcNamed (getDataList (_chartStore s)) name in
  calcInstance s (Some name) None
  = (with_instances
       (JsMap.forEach_ (fun m => fst (callback m)) (_instances s)) s,
     concat (map (fun m => snd (callback m)) (JsMap.values (_instances s)))).
Proof. unfold calcInstance. by rewrite forEach_pair. Qed.

Lemma calcInstance_shape s name paneId :
  let after := fst (calcInstance s name paneId) in
  shape after = shape s /\
  _templates after = _templates s /\
  _chartStore after = _chartStore s.
Proof.
  simpl. destruct name as [name|].
  - destruct paneId as [paneId|].
    + rewrite calcInstance_one.
      destruct (JsMap.get name (getInstances s paneId)) as [i|] eqn:Hget;
        [|done].
      destruct (getInstances_get _ _ _ _ Hget) as (m & Hpane & Hinst).
      simpl. split; [|done]. apply (shape_setPane _ _ m); [done|].
      unfold getInstances. rewrite Hpane. simpl.
      by apply keys_set_present.
    + rewrite calcInstance_named. simpl. split; [|done].
      apply shape_forEach_. intros m. apply keys_calcNamed.
  - rewrite calcInstance_all. simpl. split; [|done].
    apply shape_forEach_. intros m. apply keys_forEach_.
Qed.

Lemma setSeriesPrecision_shape s precision :
  shape (setSeriesPrecision s precision) = shape s.
Proof.
  unfold setSeriesPrecision. apply shape_forEach_. intros m.
  apply keys_forEach_.
Qed.

Lemma override_shape s indicator paneId :
  let after := fst (override s indicator paneId) in
  shape after = shape s /\
  _templates after = _templates s /\
  _chartStore after = _chartStore s.
Proof.
  simpl. destruct paneId as [paneId|].
  - destruct (JsMap.get paneId (_instances s)) as [m|] eqn:Hpane.
    + rewrite (override_one_pane _ _ _ _ Hpane). simpl. split; [|done].
      apply (shape_setPane _ _ m); [done | apply keys_overridePane].
    + by rewrite override_absent_pane.
  - rewrite override_all_panes. simpl. split; [|done].
    apply shape_forEach_. intros m. apply keys_overridePane.
Qed.

(** X10. [calcInstance], [setSeriesPrecision] and [override] leave the shape
    of the table as it was: no pane and no name is added, removed or moved.
    They also leave the templates and the chart store as they were. *)
Theorem shape_kept s name paneId precision indicator :
  (shape (fst (calcInstance s name paneId)) = shape s /\
   shape (setSeriesPrecision s precision) = shape s /\
   shape (fst (override s indicator paneId)) = shape s) /\
  (_templates (fst (calcInstance s name paneId)) = _templates s /\
   _templates (setSeriesPrecision s precision) = _templates s /\
   _templates (fst (override s indicator paneId)) = _templates s) /\
  (_chartStore (fst (calcInstance s name paneId)) = _chartStore s /\
   _chartStore (setSeriesPrecision s precision) = _chartStore s /\
   _chartStore (fst (override s indicator paneId)) = _chartStore s).
Proof.
  destruct (calcInstance_shape s name paneId) as (? & ? & ?).
  destruct (override_shape s indicator paneId) as (? & ? & ?).
  pose proof (setSeriesPrecision_shape s precision). done.
Qed.

(** ** What the operations keep *)

Lemma shape_keys s : map fst (shape s) = JsMap.keys (_instances s).
Proof. unfold shape, JsMap.keys. rewrite map_map. by apply map_ext. Qed.

Lemma shape_Forall (R : list string -> Prop) s :
  Forall (fun pane => R (JsMap.keys (snd pane))) (_instances s)
  <-> Forall (fun x => R (snd x)) (shape s).
Proof. unfold shape. by rewrite List.Forall_map. Qed.

Lemma shape_Forall_kept (R : list string -> Prop) s s' :
  shape s' = shape s ->
  Forall (fun pane => R (JsMap.keys (snd pane))) (_instances s) ->
  Forall (fun pane => R (JsMap.keys (snd pane))) (_instances s').
Proof. intros Hshape. rewrite !shape_Forall. by rewrite Hshape. Qed.

Lemma atMostOne_keys s :
  atMostOne s
  <-> Forall (fun pane => (length (JsMap.keys (snd pane)) <= 1)%nat)
        (_instances s).
Proof.
  unfold atMostOne, JsMap.size, JsMap.keys.
  split; intros H; (eapply Forall_impl; [exact H|]); intros [k m]; simpl;
    by rewrite length_map.
Qed.

Lemma noEmptyPane_keys s :
  noEmptyPane s
  <-> Forall (fun pane => JsMap.keys (snd pane) <> []) (_instances s).
Proof.
  unfold noEmptyPane.
  split; intros H; (eapply Forall_impl; [exact H|]); intros [k m]; simpl;
    by destruct m.
Qed.

Lemma uniqueKeys_shape s s' :
  shape s' = shape s -> uniqueKeys s -> uniqueKeys s'.
Proof.
  intros Hshape [Hpanes Hnames]. split.
  - by rewrite <- shape_keys, Hshape, shape_keys.
  - by apply (shape_Forall_kept NoDup s s').
Qed.

Lemma atMostOne_shape s s' :
  shape s' = shape s -> atMostOne s -> atMostOne s'.
Proof.
  intros Hshape. rewrite !atMostOne_keys.
  by apply (shape_Forall_kept (fun l => (length l <= 1)%nat) s s').
Qed.

Lemma noEmptyPane_shape s s' :
  shape s' = shape s -> noEmptyPane s -> noEmptyPane s'.
Proof.
  intros Hshape. rewrite !noEmptyPane_keys.
  by apply (shape_Forall_kept (fun l => l <> []) s s').
Qed.

Lemma NoDup_keys_small {V} (m : JsMap.t V) :
  (JsMap.size m <= 1)%nat -> NoDup (JsMap.keys m).
Proof.
  destruct m as [|[k v] [|? m]]; simpl; intros H.
  - apply NoDup_nil_2.
  - apply NoDup_singleton.
  - lia.
Qed.

Lemma uniqueKeys_setPane s paneId m :
  NoDup (JsMap.keys m) -> uniqueKeys s -> uniqueKeys (setPane paneId m s).
Proof.
  intros Hm [Hpanes Hnames]. split; simpl.
  - by apply NoDup_keys_set.
  - by apply (Forall_set (fun m => NoDup (JsMap.keys m))).
Qed.

Lemma atMostOne_setPane s paneId m :
  (JsMap.size m <= 1)%nat -> atMostOne s -> atMostOne (setPane paneId m s).
Proof.
  intros Hm Hs. unfold atMostOne. simpl.
  by apply (Forall_set (fun m => (JsMap.size m <= 1)%nat)).
Qed.

Lemma addInstance_keeps s paneId indicator isStack :
  let after := fst (addInstance s paneId indicator isStack) in
  (uniqueKeys s -> uniqueKeys after) /\
  (atMostOne s -> atMostOne after) /\
  _templates after = _templates s /\
  _chartStore after = _chartStore s.
Proof.
  simpl.
  destruct (addInstance_store s paneId indicator isStack)
    as [->|(m & -> & Hsize)]; [done|].
  split; [by apply uniqueKeys_setPane, NoDup_keys_small|].
  split; [by apply atMostOne_setPane | done].
Qed.

(** What [removeInstance] does to the panes: a predicate on maps that
    survives the removal of a name survives on every pane of the table. *)
Lemma removeInstance_Forall (Q : JsMap.t IndicatorTemplate.t -> Prop)
    s paneId name :
  (forall m k, Q m -> Q (JsMap.delete k m)) ->
  Forall (fun pane => Q (snd pane)) (_instances s) ->
  Forall (fun pane => Q (snd pane))
    (_instances (fst (removeInstance s paneId name))).
Proof.
  intros Hdel Hs.
  destruct (JsMap.get paneId (_instances s)) as [m|] eqn:Hpane.
  - rewrite (removeInstance_existing_pane _ _ _ _ Hpane). simpl.
    case_decide as Hsize; simpl.
    + rewrite delete_set. by apply (Forall_delete Q).
    + apply (Forall_set Q); [done|].
      pose proof (Forall_get Q _ _ _ Hs Hpane) as Hm.
      unfold removedFrom in *. destruct name as [name|]; simpl in *.
      * destruct (JsMap.has name m); simpl; [by apply Hdel | done].
      * done.
  - by rewrite removeInstance_absent_pane.
Qed.

Lemma removeInstance_keeps s paneId name :
  let after := fst (removeInstance s paneId name) in
  (uniqueKeys s -> uniqueKeys after) /\
  (atMostOne s -> atMostOne after) /\
  (noEmptyPane s -> noEmptyPane after) /\
  _templates after = _templates s /\
  _chartStore after = _chartStore s.
Proof.
  simpl. split; [|split; [|split]].
  - intros [Hpanes Hnames]. split.
    + destruct (JsMap.get paneId (_instances s)) as [m|] eqn:Hpane.
      * rewrite (removeInstance_existing_pane _ _ _ _ Hpane). simpl.
        case_decide; simpl.
        -- by apply NoDup_keys_delete, NoDup_keys_set.
        -- by apply NoDup_keys_set.
      * by rewrite removeInstance_absent_pane.
    + apply (removeInstance_Forall (fun m => NoDup (JsMap.keys m)));
        [|done].
      intros m k. apply NoDup_keys_delete.
  - apply (removeInstance_Forall (fun m => (JsMap.size m <= 1)%nat)).
    intros m k Hm. destruct (JsMap.has k m) eqn:Hk.
    + pose proof (size_delete_present _ _ Hk). lia.
    + rewrite delete_absent; [done|].
      unfold JsMap.has in Hk. by destruct (JsMap.get k m).
  - unfold noEmptyPane. intros Hs.
    destruct (JsMap.get paneId (_instances s)) as [m|] eqn:Hpane.
    + rewrite (removeInstance_existing_pane _ _ _ _ Hpane). simpl.
      case_decide as Hsize; simpl.
      * rewrite delete_set.
        by apply (Forall_delete (fun m => m <> [])).
      * apply (Forall_set (fun m => m <> [])); [done|].
        intros Hnil. apply Hsize. by rewrite Hnil.
    + by rewrite removeInstance_absent_pane.
  - destruct (JsMap.get paneId (_instances s)) as [m|] eqn:Hpane.
    + rewrite (removeInstance_existing_pane _ _ _ _ Hpane). simpl.
      by case_decide.
    + by rewrite removeInstance_absent_pane.
Qed.

Lemma step_keeps s s' :
  step s s' ->
  (uniqueKeys s -> uniqueKeys s') /\
  (atMostOne s -> atMostOne s') /\
  _templates s' = _templates s /\
  _chartStore s' = _chartStore s.
Proof.
  intros Hstep. destruct Hstep as
    [s paneId indicator isStack | s paneId name | s name paneId
    | s precision | s indicator paneId].
  - apply addInstance_keeps.
  - destruct (removeInstance_keeps s paneId name) as (? & ? & _ & ? & ?).
    done.
  - destruct (calcInstance_shape s name paneId) as (Hshape & ? & ?).
    split; [by apply uniqueKeys_shape|].
    split; [by apply atMostOne_shape | done].
  - pose proof (setSeriesPrecision_shape s precision) as Hshape.
    split; [by apply uniqueKeys_shape|].
    split; [by apply atMostOne_shape | done].
  - destruct (override_shape s indicator paneId) as (Hshape & ? & ?).
    split; [by apply uniqueKeys_shape|].
    split; [by apply atMostOne_shape | done].
Qed.

Lemma addInstance_gives_entry s paneId indicator isStack :
  hasInstances (fst (addInstance s paneId indicator isStack)) paneId = true.
Proof.
  destruct (JsMap.get paneId (_instances s)) as [m|] eqn:Hpane.
  - rewrite (addInstance_existing_pane _ _ _ _ _ Hpane). simpl.
    unfold hasInstances, JsMap.has. by rewrite Hpane.
  - destruct (JsMap.get (Indicator.name indicator) (_templates s))
      as [T|] eqn:Htpl.
    + rewrite (addInstance_new_pane _ _ _ _ _ Hpane Htpl). simpl.
      apply hasInstances_setPane.
    + rewrite addInstance_unknown_template by done. simpl.
      apply hasInstances_setPane.
Qed.

Lemma addInstance_keeps_entry s paneId indicator isStack kept :
  hasInstances s kept = true ->
  hasInstances (fst (addInstance s paneId indicator isStack)) kept = true.
Proof.
  intros Hkept.
  destruct (addInstance_store s paneId indicator isStack)
    as [->|(m & -> & _)]; [done|].
  destruct (decide (paneId = kept)) as [->|Hne].
  - apply hasInstances_setPane.
  - by rewrite hasInstances_setPane_ne.
Qed.

Lemma removeInstance_keeps_entry s paneId name kept :
  paneId <> kept ->
  hasInstances (fst (removeInstance s paneId name)) kept
  = hasInstances s kept.
Proof.
  intros Hne.
  destruct (JsMap.get paneId (_instances s)) as [m|] eqn:Hpane.
  - rewrite (removeInstance_existing_pane _ _ _ _ Hpane). simpl.
    case_decide; simpl.
    + unfold hasInstances, JsMap.has. simpl.
      by rewrite get_delete_ne, get_set_ne by done.
    + by apply hasInstances_setPane_ne.
  - by rewrite removeInstance_absent_pane.
Qed.

Lemma hasInstances_shape s s' paneId :
  shape s' = shape s -> hasInstances s' paneId = hasInstances s paneId.
Proof.
  intros Hshape.
  assert (Hkeys : JsMap.keys (_instances s') = JsMap.keys (_instances s)).
  { by rewrite <- !shape_keys, Hshape. }
  destruct (hasInstances s paneId) eqn:Hs.
  - destruct (hasInstances s' paneId) eqn:Hs'; [done|].
    apply hasInstances_false_get, get_None_keys in Hs'.
    rewrite Hkeys in Hs'. apply get_None_keys, hasInstances_false_get in Hs'.
    congruence.
  - apply hasInstances_false_get, get_None_keys in Hs.
    rewrite <- Hkeys in Hs. by apply get_None_keys, hasInstances_false_get in Hs.
Qed.

Lemma stepKeeping_keeps_entry kept s s' :
  stepKeeping kept s s' ->
  hasInstances s kept = true -> hasInstances s' kept = true.
Proof.
  intros Hstep Hkept. destruct Hstep as
    [s paneId indicator isStack | s paneId name Hne | s name paneId
    | s precision | s indicator paneId].
  - by apply addInstance_keeps_entry.
  - by rewrite removeInstance_keeps_entry.
  - rewrite (hasInstances_shape s); [done|].
    exact (proj1 (calcInstance_shape s name paneId)).
  - rewrite (hasInstances_shape s); [done|]. apply setSeriesPrecision_shape.
  - rewrite (hasInstances_shape s); [done|].
    exact (proj1 (override_shape s indicator paneId)).
Qed.

(** X2. After a call of [addInstance] on a pane, however it ended, the pane
    has an entry in the table, and it keeps the entry through every later
    call of the store's methods other than a [removeInstance] on that pane.
    Until such a removal, every [addInstance] on that pane returns [false]
    and changes nothing. *)
Theorem addInstance_once_per_pane
    s paneId first isStack later second isStack' :
  let s1 := fst (addInstance s paneId first isStack) in
  reachableKeeping paneId s1 later ->
  hasInstances s1 paneId = true /\
  hasInstances later paneId = true /\
  addInstance later paneId second isStack' = (later, Return false).
Proof.
  intros s1 Hreach.
  assert (Hs1 : hasInstances s1 paneId = true)
    by apply addInstance_gives_entry.
  assert (Hlater : hasInstances later paneId = true).
  { induction Hreach as [|t t' Hreach IH Hstep]; [done|].
    by apply (stepKeeping_keeps_entry paneId t). }
  split; [done|]. split; [done|].
  apply has_true_get in Hlater as [m Hm].
  by eapply addInstance_existing_pane.
Qed.

Lemma addInstance_once_per_pane_witness :
  let s1 := fst (addInstance Sample.fresh "pane1" (Indicator.only "MA") true) in
  let later :=
    fst (calcInstance
           (fst (removeInstance
                   (fst (addInstance s1 "pane2" (Indicator.only "VOL") false))
                   "pane2" None))
           None None) in
  reachableKeeping "pane1" s1 later /\
  addInstance later "pane1" (Indicator.only "VOL") true
  = (later, Return false).
Proof.
  intros s1 later.
  assert (H : reachableKeeping "pane1" s1 later).
  { assert (Hne : "pane2" <> "pane1") by discriminate.
    exact (keeping_step _ _ _ _
             (keeping_step _ _ _ _
                (keeping_step _ _ _ _ (keeping_start _ _)
                   (keeping_addInstance "pane1" s1 "pane2"
                      (Indicator.only "VOL") false))
                (keeping_removeInstance "pane1" _ "pane2" None Hne))
             (keeping_calcInstance "pane1" _ None None)). }
  split; [exact H|].
  destruct (addInstance_once_per_pane Sample.fresh "pane1"
              (Indicator.only "MA") true later (Indicator.only "VOL") true H)
    as (_ & _ & Hrejected).
  exact Hrejected.
Defined.

(** X11. As long as no pane of the table has an empty map, [hasInstances]
    answers [true] exactly for the panes that hold an instance. *)
Theorem hasInstances_with_no_empty_pane s paneId :
  noEmptyPane s ->
  (hasInstances s paneId = true <-> getInstances s paneId <> []).
Proof.
  intros Hs. unfold hasInstances, JsMap.has, getInstances.
  destruct (JsMap.get paneId (_instances s)) as [m|] eqn:Hpane; simpl.
  - split; [|done]. intros _.
    exact (Forall_get (fun m => m <> []) _ _ _ Hs Hpane).
  - split; [done | by intros H].
Qed.

Lemma hasInstances_with_no_empty_pane_witness :
  noEmptyPane Sample.fourPanes /\
  (hasInstances Sample.fourPanes "pane2" = true
   <-> getInstances Sample.fourPanes "pane2" <> []).
Proof.
  assert (H : noEmptyPane Sample.fourPanes).
  { unfold noEmptyPane. simpl. repeat apply Forall_cons_2; try done.
    }
  split; [exact H|].
  apply (hasInstances_with_no_empty_pane Sample.fourPanes "pane2" H).
Defined.

(** X12. That no pane of the table has an empty map is kept by
    [removeInstance], [calcInstance], [setSeriesPrecision] and [override], and
    by every call of [addInstance] that returns. *)
Theorem noEmptyPane_kept s paneId name selection indicator isStack precision :
  noEmptyPane s ->
  noEmptyPane (fst (removeInstance s paneId name)) /\
  noEmptyPane (fst (calcInstance s name selection)) /\
  noEmptyPane (setSeriesPrecision s precision) /\
  noEmptyPane (fst (override s indicator selection)) /\
  (forall answer,
     snd (addInstance s paneId indicator isStack) = Return answer ->
     noEmptyPane (fst (addInstance s paneId indicator isStack))).
Proof.
  intros Hs.
  split; [by apply removeInstance_keeps|].
  split.
  { apply (noEmptyPane_shape s); [|done].
    exact (proj1 (calcInstance_shape s name selection)). }
  split.
  { apply (noEmptyPane_shape s); [|done]. apply setSeriesPrecision_shape. }
  split.
  { apply (noEmptyPane_shape s); [|done].
    exact (proj1 (override_shape s indicator selection)). }
  intros answer.
  destruct (JsMap.get paneId (_instances s)) as [m|] eqn:Hpane.
  - by rewrite (addInstance_existing_pane _ _ _ _ _ Hpane).
  - destruct (JsMap.get (Indicator.name indicator) (_templates s))
      as [T|] eqn:Htpl.
    + rewrite (addInstance_new_pane _ _ _ _ _ Hpane Htpl). simpl.
      intros _. unfold noEmptyPane. simpl.
      by apply (Forall_set (fun m => m <> [])).
    + by rewrite addInstance_unknown_template.
Qed.

Lemma noEmptyPane_kept_witness :
  noEmptyPane Sample.onePane /\
  noEmptyPane (fst (removeInstance Sample.onePane "pane1" (Some "MA"))) /\
  noEmptyPane
    (fst (addInstance Sample.onePane "pane2" (Indicator.only "VOL") true)).
Proof.
  assert (H : noEmptyPane Sample.onePane).
  { unfold noEmptyPane. simpl. repeat apply Forall_cons_2; done. }
  destruct (noEmptyPane_kept Sample.onePane "pane1" (Some "MA") None
              (Indicator.only "MA") true (mkPrecision 2 0) H)
    as (Ha & _).
  destruct (noEmptyPane_kept Sample.onePane "pane2" None None
              (Indicator.only "VOL") true (mkPrecision 2 0) H)
    as (_ & _ & _ & _ & Hb).
  split; [exact H|]. split; [exact Ha|]. exact (Hb true eq_refl).
Defined.

Lemma reachable_keeps s0 s :
  reachable s0 s ->
  (uniqueKeys s0 -> uniqueKeys s) /\
  (atMostOne s0 -> atMostOne s) /\
  _templates s = _templates s0 /\
  _chartStore s = _chartStore s0.
Proof.
  induction 1 as [|s s' Hreach IH Hstep]; [done|].
  destruct IH as (IHu & IHa & IHt & IHc).
  destruct (step_keeps _ _ Hstep) as (Hu & Ha & Ht & Hc).
  split; [auto|]. split; [auto|]. split; congruence.
Qed.

(** X13. From a store whose keys are unique and whose panes hold at most one
    instance each, and so from a store with an empty table, every sequence of
    calls of [addInstance], [removeInstance], [calcInstance],
    [setSeriesPrecision] and [override] leads to a store of the same kind: no
    pane ever holds two instances. The templates and the chart store are the
    ones of the start. *)
Theorem reachable_one_instance_per_pane s0 s :
  uniqueKeys s0 -> atMostOne s0 -> reachable s0 s ->
  uniqueKeys s /\ atMostOne s /\
  (forall paneId, (JsMap.size (getInstances s paneId) <= 1)%nat) /\
  _templates s = _templates s0 /\
  _chartStore s = _chartStore s0.
Proof.
  intros Hu Ha Hreach.
  destruct (reachable_keeps _ _ Hreach) as (Hu' & Ha' & Ht & Hc).
  split; [auto|]. split; [auto|]. split; [|done].
  intros paneId. unfold getInstances.
  destruct (JsMap.get paneId (_instances s)) as [m|] eqn:Hpane; simpl.
  - exact (Forall_get (fun m => (JsMap.size m <= 1)%nat) _ _ _ (Ha' Ha) Hpane).
  - lia.
Qed.

Lemma reachable_one_instance_per_pane_witness :
  uniqueKeys Sample.registered /\
  atMostOne Sample.registered /\
  reachable Sample.registered Sample.fourPanes /\
  atMostOne Sample.fourPanes.
Proof.
  assert (H1 : uniqueKeys Sample.registered).
  { split; [apply NoDup_nil_2 | apply Forall_nil_2]. }
  assert (H2 : atMostOne Sample.registered) by apply Forall_nil_2.
  assert (H3 : reachable Sample.registered Sample.fourPanes).
  { apply (reachable_step _ _ _
             (reachable_step _ _ _
                (reachable_step _ _ _
                   (reachable_step _ _ _ (reachable_start _)
                      (step_addInstance Sample.registered "pane1"
                         (Indicator.only "MA") true))
                   (step_addInstance _ "pane2" (Indicator.only "VOL") true))
                (step_addInstance _ "pane3" (Indicator.only "MACD") true))
             (step_addInstance _ "pane4" (Indicator.onlyCalcParams "MA" [10])
                true)). }
  destruct (reachable_one_instance_per_pane _ _ H1 H2 H3) as (_ & Ha & _).
  split; [exact H1|]. split; [exact H2|]. split; [exact H3|]. exact Ha.
Defined.

Lemma step_keeps_empty s s' :
  step s s' ->
  _templates s = [] ->
  Forall (fun pane => snd pane = []) (_instances s) ->
  Forall (fun pane => snd pane = []) (_instances s').
Proof.
  assert (Hshape : forall s s',
    shape s' = shape s ->
    Forall (fun pane => snd pane = []) (_instances s) ->
    Forall (fun pane => snd pane = []) (_instances s')).
  { intros t t' Hs Ht.
    assert (Hkeys : Forall (fun pane => JsMap.keys (snd pane) = [])
                      (_instances t')).
    { apply (shape_Forall_kept (fun l => l = []) t t' Hs).
      eapply Forall_impl; [exact Ht|]. intros [k m]. simpl. by intros ->. }
    eapply Forall_impl; [exact Hkeys|]. intros [k m]. simpl. by destruct m. }
  intros Hstep Htpl Hs. destruct Hstep as
    [s paneId indicator isStack | s paneId name | s name paneId
    | s precision | s indicator paneId].
  - destruct (JsMap.get paneId (_instances s)) as [m|] eqn:Hpane.
    + by rewrite (addInstance_existing_pane _ _ _ _ _ Hpane).
    + rewrite addInstance_unknown_template; [|done|by rewrite Htpl]. simpl.
      by apply (Forall_set (fun m => m = [])).
  - apply (removeInstance_Forall (fun m => m = [])); [|done].
    by intros m k ->.
  - apply (Hshape s); [|done]. exact (proj1 (calcInstance_shape s name paneId)).
  - apply (Hshape s); [|done]. apply setSeriesPrecision_shape.
  - apply (Hshape s); [|done].
    exact (proj1 (override_shape s indicator paneId)).
Qed.

(** X14. The constructor leaves [_templates] empty and no method of the store
    writes it. So in every store that calls of [addInstance],
    [removeInstance], [calcInstance], [setSeriesPrecision] and [override] lead
    to from a new store, no template is registered, the table holds no
    instance, and [addInstance] never answers [true]: it answers [false] on a
    pane that has an entry and throws on any other. *)
Theorem reachable_from_new_store chartStore s :
  reachable (newIndicatorStore chartStore) s ->
  _templates s = [] /\
  allInstances s = [] /\
  (forall paneId indicator isStack,
     snd (addInstance s paneId indicator isStack)
     = if hasInstances s paneId then Return false else Throw TypeError).
Proof.
  intros Hreach.
  assert (Hinv : _templates s = [] /\
                 Forall (fun pane => snd pane = []) (_instances s)).
  { induction Hreach as [|s s' Hreach IH Hstep].
    - split; [done | apply Forall_nil_2].
    - destruct IH as [IHt IHe]. split.
      + destruct (step_keeps _ _ Hstep) as (_ & _ & Ht & _). congruence.
      + by apply (step_keeps_empty s). }
  destruct Hinv as [Htpl Hempty]. split; [done|]. split.
  - unfold allInstances, JsMap.values.
    induction Hempty as [|[k m] l Hm Hl IH]; simpl in *; [done|].
    by rewrite Hm, IH.
  - intros paneId indicator isStack. unfold hasInstances, JsMap.has.
    destruct (JsMap.get paneId (_instances s)) as [m|] eqn:Hpane.
    + by rewrite (addInstance_existing_pane _ _ _ _ _ Hpane).
    + rewrite addInstance_unknown_template; [done|done|by rewrite Htpl].
Qed.

Lemma reachable_from_new_store_witness :
  reachable (newIndicatorStore Sample.chart)
    (fst (addInstance Sample.fresh "pane1" (Indicator.only "MA") true)) /\
  allInstances
    (fst (addInstance Sample.fresh "pane1" (Indicator.only "MA") true)) = [].
Proof.
  assert (H : reachable (newIndicatorStore Sample.chart)
                (fst (addInstance Sample.fresh "pane1" (Indicator.only "MA")
                        true))).
  { exact (reachable_step _ _ _ (reachable_start _)
             (step_addInstance (newIndicatorStore Sample.chart) "pane1"
                (Indicator.only "MA") true)). }
  split; [exact H|].
  exact (proj1 (proj2 (reachable_from_new_store Sample.chart _ H))).
Defined.

(** ** [calcInstance], continued *)

Section CalcInstance.
Variable dataList : list KLineData.
Variable name : string.
Implicit Types m : JsMap.t IndicatorTemplate.t.

Lemma calcNamed_spec m :
  calcNamed dataList name m
  = match JsMap.get name m with
    | Some i =>
        (JsMap.set name (fst (IndicatorTemplate.calcIndicator dataList i)) m,
         [snd (IndicatorTemplate.calcIndicator dataList i)])
    | None => (m, [])
    end.
Proof.
  unfold calcNamed. destruct (JsMap.get name m) as [i|]; [|done].
  by destruct (IndicatorTemplate.calcIndicator dataList i).
Qed.

Lemma calcNamed_get m key :
  JsMap.get key (fst (calcNamed dataList name m))
  = if bool_decide (key = name)
    then (fun i => fst (IndicatorTemplate.calcIndicator dataList i))
           <$> JsMap.get key m
    else JsMap.get key m.
Proof.
  rewrite calcNamed_spec. case_bool_decide as Hkey.
  - subst key. destruct (JsMap.get name m) as [i|] eqn:Hget; simpl.
    + apply get_set_eq.
    + exact Hget.
  - destruct (JsMap.get name m) as [i|]; simpl; [|done].
    by apply get_set_ne.
Qed.

Lemma calcNamed_tasks (panes : JsMap.t (JsMap.t IndicatorTemplate.t)) :
  concat (map (fun m => snd (calcNamed dataList name m)) (JsMap.values panes))
  = map (fun i => snd (IndicatorTemplate.calcIndicator dataList i))
      (omap (fun pane => JsMap.get name (snd pane)) panes).
Proof.
  induction panes as [|[k m] panes IH]; simpl; [done|].
  rewrite IH, calcNamed_spec. by destruct (JsMap.get name m).
Qed.

Lemma calcNamed_absent m :
  JsMap.get name m = None -> fst (calcNamed dataList name m) = m.
Proof. intros H. by rewrite calcNamed_spec, H. Qed.

End CalcInstance.

Lemma calcInstance_tasks s name paneId :
  snd (calcInstance s name paneId)
  = map (fun i =>
           snd (IndicatorTemplate.calcIndicator (getDataList (_chartStore s))
                  i))
      (calcSelected s name paneId).
Proof.
  destruct name as [name|]; [destruct paneId as [paneId|]|].
  - rewrite calcInstance_one. unfold calcSelected, matchedInstances,
      selectedPanes, getInstances.
    destruct (JsMap.get paneId (_instances s)) as [m|]; simpl; [|done].
    by destruct (JsMap.get name m).
  - rewrite calcInstance_named. simpl. apply calcNamed_tasks.
  - by rewrite calcInstance_all.
Qed.

Lemma calcInstance_get s name paneId pane key :
  JsMap.get key (getInstances (fst (calcInstance s name paneId)) pane)
  = if calcSelects name paneId pane key
    then (fun i =>
            fst (IndicatorTemplate.calcIndicator
                   (getDataList (_chartStore s)) i))
           <$> JsMap.get key (getInstances s pane)
    else JsMap.get key (getInstances s pane).
Proof.
  destruct name as [name|]; [destruct paneId as [paneId|]|];
    unfold calcSelects, selects.
  - rewrite calcInstance_one.
    destruct (JsMap.get name (getInstances s paneId)) as [i|] eqn:Hget;
      simpl.
    + case_bool_decide as Hkey; case_bool_decide as Hpane; simpl.
      * subst. rewrite getInstances_setPane, get_set_eq. by rewrite Hget.
      * by rewrite getInstances_setPane_ne.
      * subst. rewrite getInstances_setPane. by apply get_set_ne.
      * by rewrite getInstances_setPane_ne.
    + case_bool_decide as Hkey; case_bool_decide as Hpane; simpl; try done.
      subst. by rewrite Hget.
  - rewrite calcInstance_named. simpl. rewrite andb_true_r.
    rewrite getInstances_forEach_. unfold getInstances.
    destruct (JsMap.get pane (_instances s)) as [m|]; simpl.
    + apply calcNamed_get.
    + by case_bool_decide.
  - rewrite calcInstance_all. simpl. rewrite getInstances_forEach_.
    unfold getInstances.
    destruct (JsMap.get pane (_instances s)) as [m|]; simpl; [|done].
    apply get_forEach_.
Qed.

(** X15. [calcInstance(name, paneId)] recomputes the instances it selects and
    no other: with both arguments the instance under [name] in [paneId], with
    a name only the instances under [name] in every pane, without a name
    every instance. It returns the flags of the recomputed instances in the
    order of the table. *)
Theorem calcInstance_selection s name paneId :
  let dataList := getDataList (_chartStore s) in
  let after := fst (calcInstance s name paneId) in
  snd (calcInstance s name paneId)
  = map (fun i => snd (IndicatorTemplate.calcIndicator dataList i))
      (calcSelected s name paneId) /\
  (forall pane key,
     JsMap.get key (getInstances after pane)
     = if calcSelects name paneId pane key
       then (fun i => fst (IndicatorTemplate.calcIndicator dataList i))
              <$> JsMap.get key (getInstances s pane)
       else JsMap.get key (getInstances s pane)).
Proof.
  split; [apply calcInstance_tasks|]. intros pane key. apply calcInstance_get.
Qed.

Example calcInstance_sample_by_name :
  let s := Sample.fourPanesMoreData in
  let after := fst (calcInstance s (Some "MA") None) in
  snd (calcInstance s (Some "MA") None) = [true; true] /\
  IndicatorTemplate.result <$> JsMap.get "MA" (getInstances after "pane1")
  = Some [15; 25; 35; 45] /\
  IndicatorTemplate.result <$> JsMap.get "MA" (getInstances after "pane4")
  = Some [20; 30; 40; 50] /\
  JsMap.get "VOL" (getInstances after "pane2") = Some Sample.VOL_computed /\
  calcInstance s (Some "MA") (Some "pane2") = (s, []).
Proof. repeat split; reflexivity. Qed.

Lemma calcIndicator_forgetResult dataList i :
  forgetResult (fst (IndicatorTemplate.calcIndicator dataList i))
  = forgetResult i.
Proof.
  unfold IndicatorTemplate.calcIndicator.
  by destruct (IndicatorTemplate.calc i _ _ dataList).
Qed.

(** X16. Whatever it selects, [calcInstance] changes nothing of an instance
    but its [result]. *)
Theorem calcInstance_changes_results_only s name paneId pane key :
  forgetResult
    <$> JsMap.get key (getInstances (fst (calcInstance s name paneId)) pane)
  = forgetResult <$> JsMap.get key (getInstances s pane).
Proof.
  rewrite calcInstance_get.
  destruct (calcSelects name paneId pane key); [|done].
  destruct (JsMap.get key (getInstances s pane)) as [i|]; simpl; [|done].
  by rewrite calcIndicator_forgetResult.
Qed.

Lemma forEach__id_elem {V} (f : V -> V) (m : JsMap.t V) :
  (forall k v, (k, v) ∈ m -> f v = v) -> JsMap.forEach_ f m = m.
Proof.
  induction m as [|[k v] m IH]; simpl; [done|]. intros Hf.
  rewrite (Hf k v) by apply list_elem_of_here.
  rewrite IH; [done|]. intros k' v' Hin. apply (Hf k').
  by apply list_elem_of_further.
Qed.

Lemma omap_nil_elem {A B} (f : A -> option B) (l : list A) x :
  omap f l = [] -> x ∈ l -> f x = None.
Proof.
  induction l as [|y l IH]; simpl; [by intros _ ?%elem_of_nil|].
  destruct (f y) eqn:Hy; [done|].
  intros Hl [->|Hin]%elem_of_cons; [done | by apply IH].
Qed.

Lemma allInstances_nil_elem s k m :
  allInstances s = [] -> (k, m) ∈ _instances s -> m = [].
Proof.
  unfold allInstances, JsMap.values. generalize (_instances s). intros l.
  induction l as [|[k' m'] l IH]; simpl; [by intros _ ?%elem_of_nil|].
  intros [Hm Hl]%app_eq_nil [Heq|Hin]%elem_of_cons.
  - injection Heq as -> ->. by destruct m' as [|[] ?].
  - by apply IH.
Qed.

(** X17. When [calcInstance] selects no instance (its pane has no entry, or
    no selected pane holds the name, or the table holds no instance), it
    returns no flag and leaves the store as it was. *)
Theorem calcInstance_nothing_selected s name paneId :
  calcSelected s name paneId = [] ->
  calcInstance s name paneId = (s, []).
Proof.
  intros Hnil. destruct name as [name|]; [destruct paneId as [paneId|]|];
    unfold calcSelected in Hnil.
  - rewrite calcInstance_one.
    unfold matchedInstances, selectedPanes, getInstances in *.
    destruct (JsMap.get paneId (_instances s)) as [m|]; simpl in *; [|done].
    by destruct (JsMap.get name m).
  - rewrite calcInstance_named. simpl. rewrite calcNamed_tasks.
    unfold matchedInstances, selectedPanes in Hnil. rewrite Hnil. simpl.
    f_equal. rewrite forEach__id_elem; [apply with_instances_same|].
    intros k m Hin. apply calcNamed_absent.
    exact (omap_nil_elem _ _ (k, m) Hnil Hin).
  - rewrite calcInstance_all. simpl. rewrite Hnil. simpl. f_equal.
    rewrite forEach__id_elem; [apply with_instances_same|].
    intros k m Hin. by rewrite (allInstances_nil_elem _ _ _ Hnil Hin).
Qed.

Lemma calcInstance_nothing_selected_witness :
  calcSelected Sample.fourPanes (Some "RSI") None = [] /\
  calcInstance Sample.fourPanes (Some "RSI") None = (Sample.fourPanes, []).
Proof.
  split; [reflexivity|].
  apply (calcInstance_nothing_selected Sample.fourPanes (Some "RSI") None).
  reflexivity.
Defined.

(** ** [override], continued *)

(** X18. When no selected pane holds the name of the configuration,
    [override] returns no flag and leaves the store as it was. *)
Theorem override_nothing_matched s indicator paneId :
  matchedInstances s (Indicator.name indicator) paneId = [] ->
  override s indicator paneId = (s, []).
Proof.
  unfold matchedInstances, selectedPanes. intros Hnil.
  destruct paneId as [paneId|].
  - destruct (JsMap.get paneId (_instances s)) as [m|] eqn:Hpane.
    + rewrite (override_one_pane _ _ _ _ Hpane). simpl.
      rewrite overridePane_spec. simpl in Hnil.
      destruct (JsMap.get (Indicator.name indicator) m); [done|]. simpl.
      by rewrite setPane_same.
    + by apply override_absent_pane.
  - rewrite override_all_panes. simpl. rewrite overridePane_tasks, Hnil.
    simpl. f_equal. rewrite forEach__id_elem; [apply with_instances_same|].
    intros k m Hin. rewrite overridePane_spec.
    pose proof (omap_nil_elem _ _ (k, m) Hnil Hin) as Hget. simpl in Hget.
    by rewrite Hget.
Qed.

Lemma override_nothing_matched_witness :
  matchedInstances Sample.fourPanes "MA" (Some "pane2") = [] /\
  override Sample.fourPanes Sample.renameAndParams (Some "pane2")
  = (Sample.fourPanes, []).
Proof.
  split; [reflexivity|].
  apply (override_nothing_matched Sample.fourPanes Sample.renameAndParams
           (Some "pane2")).
  reflexivity.
Defined.

(** X19. [override] touches nothing but the instances under the name of the
    configuration in the panes it selects: every other instance, under
    another name or in another pane, is the one that was there. *)
Theorem override_touches_matched_only s indicator paneId pane key :
  JsMap.get key (getInstances (fst (override s indicator paneId)) pane)
  = if selects paneId pane && bool_decide (key = Indicator.name indicator)
    then overrideMatched (getDataList (_chartStore s)) indicator
           <$> JsMap.get key (getInstances s pane)
    else JsMap.get key (getInstances s pane).
Proof.
  rewrite override_getInstances.
  destruct (selects paneId pane); simpl; [|done].
  case_bool_decide as Hkey.
  - subst key. apply overridePane_get.
  - by apply overridePane_get_other.
Qed.

Lemma overridden_with_result r i p :
  overridden (IndicatorTemplate.with_result r i) p
  = IndicatorTemplate.with_result r (overridden i p).
Proof. reflexivity. Qed.

Lemma calcIndicator_with_result dataList i :
  exists r,
    fst (IndicatorTemplate.calcIndicator dataList i)
    = IndicatorTemplate.with_result r i.
Proof.
  unfold IndicatorTemplate.calcIndicator.
  destruct (IndicatorTemplate.calc i _ _ dataList) as [r|]; simpl.
  - by exists r.
  - exists (IndicatorTemplate.result i). by destruct i.
Qed.

Lemma overrideMatched_with_result dataList p i :
  exists r,
    overrideMatched dataList p i
    = IndicatorTemplate.with_result r (overridden i p).
Proof.
  unfold overrideMatched. rewrite overrideInstance_closed_form. simpl.
  destruct (calcParamsChanged p i).
  - apply calcIndicator_with_result.
  - exists (IndicatorTemplate.result (overridden i p)).
    by destruct (overridden i p).
Qed.

Lemma overrideMatched_again dataList p i :
  let i' := overrideMatched dataList p i in
  calcParamsChanged p i' = false /\ overrideMatched dataList p i' = i'.
Proof.
  simpl. destruct (overrideMatched_with_result dataList p i) as [r ->].
  assert (Hsame : calcParamsChanged p
                    (IndicatorTemplate.with_result r (overridden i p))
                  = false).
  { rewrite calcParamsChanged_spec. simpl.
    destruct (Indicator.calcParams p) as [v|]; simpl; [|done].
    by rewrite bool_decide_eq_false_2 by auto. }
  split; [exact Hsame|].
  unfold overrideMatched. rewrite Hsame, overrideInstance_closed_form. simpl.
  by rewrite overridden_with_result, overridden_idempotent.
Qed.

Lemma overridePane_again dataList p m :
  overridePane dataList p (fst (overridePane dataList p m))
  = (fst (overridePane dataList p m), []).
Proof.
  rewrite (overridePane_spec dataList p m).
  destruct (JsMap.get (Indicator.name p) m) as [i|] eqn:Hget; simpl.
  - rewrite overridePane_spec, get_set_eq.
    destruct (overrideMatched_again dataList p i) as [-> ->].
    by rewrite set_set_eq.
  - by rewrite overridePane_spec, Hget.
Qed.

(** X20. Calling [override] again with the same configuration and the same
    selection recomputes nothing and leaves the store as the first call left
    it. *)
Theorem override_again s indicator paneId :
  let once := fst (override s indicator paneId) in
  override once indicator paneId = (once, []).
Proof.
  simpl. destruct paneId as [paneId|].
  - destruct (JsMap.get paneId (_instances s)) as [m|] eqn:Hpane.
    + rewrite (override_one_pane _ _ _ _ Hpane). cbn [fst snd].
      set (m' := fst (overridePane (getDataList (_chartStore s)) indicator m)).
      assert (Hget : JsMap.get paneId (_instances (setPane paneId m' s))
                     = Some m').
      { unfold setPane. simpl. apply get_set_eq. }
      rewrite (override_one_pane _ _ _ _ Hget).
      change (_chartStore (setPane paneId m' s)) with (_chartStore s).
      unfold m'. rewrite overridePane_again. cbn [fst snd]. fold m'.
      by rewrite (setPane_same _ _ _ Hget).
    + rewrite (override_absent_pane s indicator paneId Hpane). cbn [fst].
      by apply override_absent_pane.
  - rewrite !override_all_panes. simpl. f_equal.
    + unfold with_instances. simpl. f_equal.
      rewrite forEach__compose. apply forEach__ext. intros m.
      by rewrite overridePane_again.
    + generalize (_instances s). intros l.
      induction l as [|[k m] l IH]; simpl in *; [done|].
      by rewrite overridePane_again, IH.
Qed.

Example override_again_sample :
  let once := fst (override Sample.fourPanesMoreData Sample.renameAndParams
                     None) in
  snd (override Sample.fourPanesMoreData Sample.renameAndParams None) = [true]
  /\ override once Sample.renameAndParams None = (once, []).
Proof. split; reflexivity. Qed.

(** ** [_overrideInstance], continued *)

(** X21. Whatever the configuration holds, [_overrideInstance] never assigns
    the [name], the [maxValue] or the [result] of the instance. *)
Theorem overrideInstance_never_assigns instance indicator :
  let after := fst (_overrideInstance instance indicator) in
  IndicatorTemplate.name after = IndicatorTemplate.name instance /\
  IndicatorTemplate.maxValue after = IndicatorTemplate.maxValue instance /\
  IndicatorTemplate.result after = IndicatorTemplate.result instance.
Proof. simpl. by rewrite overrideInstance_closed_form. Qed.

Lemma orNonNull_nullAsAbsent {A} (current : option A) v :
  orNonNull current (nullAsAbsent v) = orNonNull current v.
Proof. by destruct v as [[a|]|]. Qed.

Lemma differsNonNull_nullAsAbsent {A} `{EqDecision A}
    (current : option A) v :
  differsNonNull (nullAsAbsent v) current = differsNonNull v current.
Proof. by destruct v as [[a|]|]. Qed.

(** X22. For [styles], [regeneratePlots], [createToolTipDataSource] and
    [draw], [null] in the configuration does what an absent property does:
    the instance left and the two flags are the same. *)
Theorem overrideInstance_null_as_absent instance indicator :
  _overrideInstance instance (withoutNulls indicator)
  = _overrideInstance instance indicator.
Proof.
  rewrite !overrideInstance_closed_form.
  unfold overridden, overrideSuccess, withoutNulls. simpl.
  by rewrite !orNonNull_nullAsAbsent, !differsNonNull_nullAsAbsent.
Qed.

Example overrideInstance_null_sample :
  _overrideInstance Sample.MA SampleMore.nullStyles
  = (IndicatorTemplate.with_shortName "avg" Sample.MA, (true, false)).
Proof. reflexivity. Qed.

(** X23. A [calc] in the configuration replaces the calculation of the
    instance and counts for nothing in the flags: they are those of the
    configuration without its [calc], and so is every other field of the
    instance. *)
Theorem overrideInstance_calc_uncounted instance indicator :
  let without := _overrideInstance instance (withoutCalc indicator) in
  _overrideInstance instance indicator
  = (match Indicator.calc indicator with
     | Some calc => IndicatorTemplate.with_calc calc (fst without)
     | None => fst without
     end,
     snd without).
Proof.
  simpl. rewrite !overrideInstance_closed_form. simpl.
  unfold overridden, overrideSuccess, withoutCalc. simpl.
  by destruct (Indicator.calc indicator).
Qed.

Example overrideInstance_calc_sample :
  snd (_overrideInstance Sample.MA SampleMore.swapCalc) = (false, false) /\
  IndicatorTemplate.calc (fst (_overrideInstance Sample.MA SampleMore.swapCalc))
    [5] 0 [10; 20; 30]
  = None /\
  snd (override Sample.onePane SampleMore.swapCalc None) = [].
Proof. repeat split; reflexivity. Qed.

Lemma differs_false_default {A} `{EqDecision A} (v : option A) (current : A) :
  differs v current = false -> default current v = current.
Proof.
  destruct v as [a|]; simpl; [|done].
  intros H. apply bool_decide_eq_false in H. by apply dec_stable in H.
Qed.

Lemma differsNonNull_false_orNonNull {A} `{EqDecision A}
    (v : option (option A)) (current : option A) :
  differsNonNull v current = false -> orNonNull current v = current.
Proof.
  destruct v as [[a|]|]; simpl; try done.
  intros H. apply bool_decide_eq_false in H. by apply dec_stable in H.
Qed.

(** X24. When [_overrideInstance] reports no change, the instance it leaves
    is the one it was given, apart from the calculation, which is the one of
    the configuration when it has one. *)
Theorem overrideInstance_reported_unchanged instance indicator :
  fst (snd (_overrideInstance instance indicator)) = false ->
  fst (_overrideInstance instance indicator)
  = match Indicator.calc indicator with
    | Some calc => IndicatorTemplate.with_calc calc instance
    | None => instance
    end.
Proof.
  rewrite overrideInstance_closed_form. simpl. unfold overrideSuccess.
  rewrite !orb_false_iff.
  intros (((((((((((((H1 & H2) & H3) & H4) & H5) & H6) & H7) & H8) & H9)
            & H10) & H11) & H12) & H13) & H14).
  unfold overridden.
  rewrite (differs_false_default _ _ H1), (differs_false_default _ _ H2),
    (differs_false_default _ _ H3), (differs_false_default _ _ H4),
    (differs_false_default _ _ H6), (differs_false_default _ _ H5),
    (differs_false_default _ _ H7), (differs_false_default _ _ H8),
    (differs_false_default _ _ H9),
    (differsNonNull_false_orNonNull _ _ H10),
    (differs_false_default _ _ H11),
    (differsNonNull_false_orNonNull _ _ H12),
    (differsNonNull_false_orNonNull _ _ H13),
    (differsNonNull_false_orNonNull _ _ H14).
  destruct instance. by destruct (Indicator.calc indicator).
Qed.

Lemma overrideInstance_reported_unchanged_witness :
  fst (snd (_overrideInstance Sample.MA SampleMore.swapCalc)) = false /\
  fst (_overrideInstance Sample.MA SampleMore.swapCalc)
  = IndicatorTemplate.with_calc SampleMore.failingCalc Sample.MA.
Proof.
  split; [reflexivity|].
  apply (overrideInstance_reported_unchanged Sample.MA SampleMore.swapCalc).
  reflexivity.
Defined.

(** ** [setSeriesPrecision], continued *)

Lemma setSeriesPrecision_callback precision i :
  (let instance :=
     if decide (IndicatorTemplate.series i = PRICE)
     then fst (IndicatorTemplate.setPrecision (price precision) true i)
     else i in
   if decide (IndicatorTemplate.series instance = VOLUME)
   then fst (IndicatorTemplate.setPrecision (volume precision) true instance)
   else instance)
  = match IndicatorTemplate.series i with
    | PRICE => IndicatorTemplate.with_precision (price precision) i
    | VOLUME => IndicatorTemplate.with_precision (volume precision) i
    | NORMAL => i
    end.
Proof.
  simpl. rewrite !setPrecision_assigns.
  by destruct (IndicatorTemplate.series i) eqn:Hs; simpl; rewrite ?Hs.
Qed.

(** X25. Of two calls of [setSeriesPrecision] in a row the second decides:
    the store is the one the second call alone leaves. *)
Theorem setSeriesPrecision_last_wins s first second :
  setSeriesPrecision (setSeriesPrecision s first) second
  = setSeriesPrecision s second.
Proof.
  unfold setSeriesPrecision, with_instances. simpl. f_equal.
  rewrite forEach__compose. apply forEach__ext. intros m.
  rewrite forEach__compose. apply forEach__ext. intros i.
  pose proof (setSeriesPrecision_callback first i) as Hfirst.
  cbv zeta in Hfirst. rewrite Hfirst.
  pose proof (setSeriesPrecision_callback second) as Hsecond.
  cbv zeta in Hsecond. rewrite !Hsecond.
  by destruct (IndicatorTemplate.series i) eqn:Hs; simpl; rewrite ?Hs.
Qed.

(** ** The accessors *)

(** X26. [getInstance] with a pane and a name gives what [getInstances] of
    the pane holds under the name, or [null]; with a pane alone it gives the
    pane's map when [hasInstances] is [true] and [null] otherwise, where
    [getInstances] gives an empty map; without a pane it gives the whole
    table, whatever the name. *)
Theorem accessors_agree s paneId name :
  getInstance s (Some paneId) (Some name)
  = OneInstance (JsMap.get name (getInstances s paneId)) /\
  getInstance s (Some paneId) None
  = OnePane (if hasInstances s paneId
             then Some (getInstances s paneId) else None) /\
  (hasInstances s paneId = true \/ getInstances s paneId = []) /\
  getInstance s None (Some name) = WholeTable (_instances s).
Proof.
  unfold getInstance, getInstances, hasInstances, JsMap.has.
  destruct (JsMap.get paneId (_instances s)); simpl; repeat split; auto.
Qed.
